(** * lens-FE: the panorama editor and the single-image lens corrector

    A shallow embedding of [src/app/components/PanoramaEditor.tsx] and of
    the [LensCorrector] component (its shaders [vsSource] / [fsSource]).

    JavaScript numbers are IEEE-754 binary64 values and the GLSL shaders
    compute in the GPU's floating point.  The code is therefore embedded
    once, over an interface [Arith] of the arithmetic it uses, and read
    in two ways:

    - [ideal]: exact arithmetic over the real numbers, the arithmetic the
      floating-point computation approximates;
    - [binary64]: Rocq's primitive floats, which are the binary64 numbers
      of JavaScript, with [Math.cos], [Math.sin] and [Math.exp] taken as
      parameters.  Non-finite values (division by zero, [Infinity],
      [NaN]) exist only there. *)

From Stdlib Require Import Floats.
From Stdlib Require Import ZArith List String Bool Lia Permutation Sorted.
From Stdlib Require Import Reals Lra.
Import ListNotations.

Set Implicit Arguments.

(** ** The arithmetic of JavaScript numbers and GLSL floats *)

Class Arith (N : Type) : Type := {
  of_Z : Z -> N;                    (* an integer literal *)
  add : N -> N -> N;
  sub : N -> N -> N;
  mul : N -> N -> N;
  div : N -> N -> N;
  neg : N -> N;                     (* unary minus *)
  ltb : N -> N -> bool;             (* a < b *)
  leb : N -> N -> bool;             (* a <= b *)
  eqb : N -> N -> bool;             (* a === b *)
  Math_abs : N -> N;
  Math_min : N -> N -> N;
  Math_max : N -> N -> N;
  Math_cos : N -> N;
  Math_sin : N -> N;
  Math_exp : N -> N
}.

Declare Scope num_scope.
Delimit Scope num_scope with num.
Infix "+" := add : num_scope.
Infix "-" := sub : num_scope.
Infix "*" := mul : num_scope.
Infix "/" := div : num_scope.
Notation "- x" := (neg x) : num_scope.
Infix "<?" := ltb (at level 70, no associativity) : num_scope.
Infix "<=?" := leb (at level 70, no associativity) : num_scope.
Notation "a >? b" := (ltb b a) (at level 70, no associativity) : num_scope.
Infix "=?" := eqb (at level 70, no associativity) : num_scope.

(** A decimal literal [n/d] of the source ([0.5] is [dec 5 10]).  In
    binary64 the quotient of two exactly represented integers is rounded
    correctly, so [dec 1 10] is the double the literal [0.1] denotes. *)
Definition dec {N} `{Arith N} (n d : Z) : N := div (of_Z n) (of_Z d).

Section Code.

Context {N : Type} `{Arith N}.
Local Open Scope num_scope.

(** *** Matrix helpers ([number[]] of length nine, column-major for WebGL) *)

Record m3 : Type := M3 {
  e0 : N; e1 : N; e2 : N;
  e3 : N; e4 : N; e5 : N;
  e6 : N; e7 : N; e8 : N
}.

Definition m3_projection (width height : N) : m3 :=
  M3 (of_Z 2 / width) (of_Z 0) (of_Z 0)
     (of_Z 0) (of_Z (-2) / height) (of_Z 0)
     (of_Z (-1)) (of_Z 1) (of_Z 1).

Definition m3_translation (tx ty : N) : m3 :=
  M3 (of_Z 1) (of_Z 0) (of_Z 0)
     (of_Z 0) (of_Z 1) (of_Z 0)
     tx ty (of_Z 1).

Definition m3_rotation (angleInRadians : N) : m3 :=
  let c := Math_cos angleInRadians in
  let s := Math_sin angleInRadians in
  M3 c (- s) (of_Z 0)
     s c (of_Z 0)
     (of_Z 0) (of_Z 0) (of_Z 1).

Definition m3_scale (sx sy : N) : m3 :=
  M3 sx (of_Z 0) (of_Z 0)
     (of_Z 0) sy (of_Z 0)
     (of_Z 0) (of_Z 0) (of_Z 1).

Definition m3_multiply (a b : m3) : m3 :=
  let a00 := e0 a in let a01 := e1 a in let a02 := e2 a in
  let a10 := e3 a in let a11 := e4 a in let a12 := e5 a in
  let a20 := e6 a in let a21 := e7 a in let a22 := e8 a in
  let b00 := e0 b in let b01 := e1 b in let b02 := e2 b in
  let b10 := e3 b in let b11 := e4 b in let b12 := e5 b in
  let b20 := e6 b in let b21 := e7 b in let b22 := e8 b in
  M3 (b00 * a00 + b01 * a10 + b02 * a20)
     (b00 * a01 + b01 * a11 + b02 * a21)
     (b00 * a02 + b01 * a12 + b02 * a22)
     (b10 * a00 + b11 * a10 + b12 * a20)
     (b10 * a01 + b11 * a11 + b12 * a21)
     (b10 * a02 + b11 * a12 + b12 * a22)
     (b20 * a00 + b21 * a10 + b22 * a20)
     (b20 * a01 + b21 * a11 + b22 * a21)
     (b20 * a02 + b21 * a12 + b22 * a22).

(** *** Shaders *)

Record vec2 : Type := Vec2 { vx : N; vy : N }.
Record vec4 : Type := Vec4 { cr : N; cg : N; cb : N; ca : N }.

(** What a fragment shader invocation leaves: a colour written to
    [gl_FragColor], or nothing ([discard]). *)
Inductive fragment : Type :=
| discard : fragment
| gl_FragColor : vec4 -> fragment.

(** [u_matrix * vec3(a_position, 1)] for the [mat3] uploaded with
    [uniformMatrix3fv(loc, false, m)]: the array is read column by
    column, so the columns are [(e0,e1,e2)], [(e3,e4,e5)], [(e6,e7,e8)]. *)
Definition mat3_mul_vec3 (m : m3) (x y z : N) : N * N * N :=
  (e0 m * x + e3 m * y + e6 m * z,
   e1 m * x + e4 m * y + e7 m * z,
   e2 m * x + e5 m * y + e8 m * z).

(** [VS_SOURCE]: the [xy] of [gl_Position]. *)
Definition VS_SOURCE (u_matrix : m3) (a_position : vec2) : vec2 :=
  let '(px, py, _) := mat3_mul_vec3 u_matrix (vx a_position) (vy a_position) (of_Z 1) in
  Vec2 px py.

Definition dot (a b : vec2) : N := vx a * vx b + vy a * vy b.

(** The source coordinate the layered shader looks up. *)
Definition FS_uv (u_distortion : N) (v_texCoord : vec2) : vec2 :=
  let coord := Vec2 (vx v_texCoord - dec 5 10) (vy v_texCoord - dec 5 10) in
  let r2 := dot coord coord in
  let k := of_Z 1 + u_distortion * r2 in
  let dist_coord := Vec2 (vx coord * k) (vy coord * k) in
  Vec2 (vx dist_coord + dec 5 10) (vy dist_coord + dec 5 10).

(** The edge test both fragment shaders share. *)
Definition outside (uv : vec2) : bool :=
  (vx uv <? of_Z 0) || (vx uv >? of_Z 1) || (vy uv <? of_Z 0) || (vy uv >? of_Z 1).

(** [FS_SOURCE], the fragment shader of the panorama editor. *)
Definition FS_SOURCE (u_image : vec2 -> vec4) (u_distortion u_opacity : N)
    (v_texCoord : vec2) : fragment :=
  let uv := FS_uv u_distortion v_texCoord in
  if outside uv then discard
  else
    let color := u_image uv in
    gl_FragColor (Vec4 (cr color) (cg color) (cb color) (ca color * u_opacity)).

(** The source coordinate the single-image shader looks up. *)
Definition fs_uv (u_strength u_zoom : N) (v_texCoord : vec2) : vec2 :=
  let coord := Vec2 (vx v_texCoord - dec 5 10) (vy v_texCoord - dec 5 10) in
  let r2 := dot coord coord in
  let k := of_Z 1 + u_strength * r2 in
  let dist_coord := Vec2 (vx coord * k) (vy coord * k) in
  let final_coord := Vec2 (vx dist_coord / u_zoom) (vy dist_coord / u_zoom) in
  Vec2 (vx final_coord + dec 5 10) (vy final_coord + dec 5 10).

(** [fsSource], the fragment shader of the single-image corrector. *)
Definition fsSource (u_image : vec2 -> vec4) (u_strength u_zoom : N)
    (v_texCoord : vec2) : fragment :=
  let uv := fs_uv u_strength u_zoom v_texCoord in
  if outside uv then gl_FragColor (Vec4 (of_Z 0) (of_Z 0) (of_Z 0) (of_Z 0))
  else gl_FragColor (u_image uv).

(** *** The editor's data *)

Definition WebGLTexture := nat.

Record HTMLImageElement : Type := {
  img_src : string;
  img_width : N;
  img_height : N
}.

Record ImageLayer : Type := {
  id : string;
  name : string;
  image : HTMLImageElement;
  texture : option WebGLTexture;
  x : N;            (* centre, screen pixels *)
  y : N;
  width : N;        (* original pixels *)
  height : N;
  scale : N;
  rotation : N;     (* radians *)
  distortion : N;
  opacity : N;
  zIndex : Z
}.

(** [Partial<ImageLayer>]: each field supplied or absent. *)
Record PartialLayer : Type := {
  p_id : option string;
  p_name : option string;
  p_image : option HTMLImageElement;
  p_texture : option (option WebGLTexture);
  p_x : option N;
  p_y : option N;
  p_width : option N;
  p_height : option N;
  p_scale : option N;
  p_rotation : option N;
  p_distortion : option N;
  p_opacity : option N;
  p_zIndex : option Z
}.

Definition no_updates : PartialLayer :=
  Build_PartialLayer None None None None None None None None None None None None None.

Definition supplied {A} (o : option A) (old : A) : A :=
  match o with Some v => v | None => old end.

(** [{...l, ...updates}] *)
Definition spread (l : ImageLayer) (updates : PartialLayer) : ImageLayer :=
  {| id := supplied (p_id updates) (id l);
     name := supplied (p_name updates) (name l);
     image := supplied (p_image updates) (image l);
     texture := supplied (p_texture updates) (texture l);
     x := supplied (p_x updates) (x l);
     y := supplied (p_y updates) (y l);
     width := supplied (p_width updates) (width l);
     height := supplied (p_height updates) (height l);
     scale := supplied (p_scale updates) (scale l);
     rotation := supplied (p_rotation updates) (rotation l);
     distortion := supplied (p_distortion updates) (distortion l);
     opacity := supplied (p_opacity updates) (opacity l);
     zIndex := supplied (p_zIndex updates) (zIndex l) |}.

Record Point : Type := { pt_x : N; pt_y : N }.
Record Size : Type := { w : N; h : N }.
Record View : Type := { view_x : N; view_y : N; view_scale : N }.

(** The linked shader program of a context. *)
Inductive WebGLProgram : Type := LinkedProgram.

(** The component's state, with the texture objects of its WebGL context
    ([glRef]: [None] while there is no context) and its shader program
    ([programRef]: [None] until the program is linked). *)
Record EditorState : Type := {
  layers : list ImageLayer;
  activeLayerId : option string;
  isDragging : bool;
  isPanning : bool;
  isSpacePressed : bool;
  dragStart : Point;
  initialPos : Point;
  initialView : Point;
  canvasSize : Size;
  view : View;
  glRef : option (list WebGLTexture);
  programRef : option WebGLProgram
}.

Definition initialState : EditorState :=
  {| layers := []; activeLayerId := None;
     isDragging := false; isPanning := false; isSpacePressed := false;
     dragStart := {| pt_x := of_Z 0; pt_y := of_Z 0 |};
     initialPos := {| pt_x := of_Z 0; pt_y := of_Z 0 |};
     initialView := {| pt_x := of_Z 0; pt_y := of_Z 0 |};
     canvasSize := {| w := of_Z 800; h := of_Z 600 |};
     view := {| view_x := of_Z 0; view_y := of_Z 0; view_scale := of_Z 1 |};
     glRef := None; programRef := None |}.

Definition setLayers (f : list ImageLayer -> list ImageLayer) (st : EditorState) :=
  {| layers := f (layers st); activeLayerId := activeLayerId st;
     isDragging := isDragging st; isPanning := isPanning st;
     isSpacePressed := isSpacePressed st; dragStart := dragStart st;
     initialPos := initialPos st; initialView := initialView st;
     canvasSize := canvasSize st; view := view st; glRef := glRef st;
     programRef := programRef st |}.

Definition setActiveLayerId (a : option string) (st : EditorState) :=
  {| layers := layers st; activeLayerId := a;
     isDragging := isDragging st; isPanning := isPanning st;
     isSpacePressed := isSpacePressed st; dragStart := dragStart st;
     initialPos := initialPos st; initialView := initialView st;
     canvasSize := canvasSize st; view := view st; glRef := glRef st;
     programRef := programRef st |}.

Definition setIsDragging (b : bool) (st : EditorState) :=
  {| layers := layers st; activeLayerId := activeLayerId st;
     isDragging := b; isPanning := isPanning st;
     isSpacePressed := isSpacePressed st; dragStart := dragStart st;
     initialPos := initialPos st; initialView := initialView st;
     canvasSize := canvasSize st; view := view st; glRef := glRef st;
     programRef := programRef st |}.

Definition setIsPanning (b : bool) (st : EditorState) :=
  {| layers := layers st; activeLayerId := activeLayerId st;
     isDragging := isDragging st; isPanning := b;
     isSpacePressed := isSpacePressed st; dragStart := dragStart st;
     initialPos := initialPos st; initialView := initialView st;
     canvasSize := canvasSize st; view := view st; glRef := glRef st;
     programRef := programRef st |}.

Definition setDragStart (p : Point) (st : EditorState) :=
  {| layers := layers st; activeLayerId := activeLayerId st;
     isDragging := isDragging st; isPanning := isPanning st;
     isSpacePressed := isSpacePressed st; dragStart := p;
     initialPos := initialPos st; initialView := initialView st;
     canvasSize := canvasSize st; view := view st; glRef := glRef st;
     programRef := programRef st |}.

Definition setInitialPos (p : Point) (st : EditorState) :=
  {| layers := layers st; activeLayerId := activeLayerId st;
     isDragging := isDragging st; isPanning := isPanning st;
     isSpacePressed := isSpacePressed st; dragStart := dragStart st;
     initialPos := p; initialView := initialView st;
     canvasSize := canvasSize st; view := view st; glRef := glRef st;
     programRef := programRef st |}.

Definition setInitialView (p : Point) (st : EditorState) :=
  {| layers := layers st; activeLayerId := activeLayerId st;
     isDragging := isDragging st; isPanning := isPanning st;
     isSpacePressed := isSpacePressed st; dragStart := dragStart st;
     initialPos := initialPos st; initialView := p;
     canvasSize := canvasSize st; view := view st; glRef := glRef st;
     programRef := programRef st |}.

Definition setView (f : View -> View) (st : EditorState) :=
  {| layers := layers st; activeLayerId := activeLayerId st;
     isDragging := isDragging st; isPanning := isPanning st;
     isSpacePressed := isSpacePressed st; dragStart := dragStart st;
     initialPos := initialPos st; initialView := initialView st;
     canvasSize := canvasSize st; view := f (view st); glRef := glRef st;
     programRef := programRef st |}.

Definition setGl (g : option (list WebGLTexture)) (st : EditorState) :=
  {| layers := layers st; activeLayerId := activeLayerId st;
     isDragging := isDragging st; isPanning := isPanning st;
     isSpacePressed := isSpacePressed st; dragStart := dragStart st;
     initialPos := initialPos st; initialView := initialView st;
     canvasSize := canvasSize st; view := view st; glRef := g;
     programRef := programRef st |}.

Definition setProgram (p : option WebGLProgram) (st : EditorState) :=
  {| layers := layers st; activeLayerId := activeLayerId st;
     isDragging := isDragging st; isPanning := isPanning st;
     isSpacePressed := isSpacePressed st; dragStart := dragStart st;
     initialPos := initialPos st; initialView := initialView st;
     canvasSize := canvasSize st; view := view st; glRef := glRef st;
     programRef := p |}.

(** What the browser answers to the calls of the [Init WebGL] effect:
    whether the canvas is mounted, [getContext] returns a context, each
    [createShader] returns a compiled shader, [createProgram] returns a
    program, and the program links. *)
Record WebGLAnswers : Type := {
  canvasMounted : bool;
  contextCreated : bool;
  vertexShaderCompiled : bool;
  fragmentShaderCompiled : bool;
  programCreated : bool;
  programLinked : bool
}.

(** The [Init WebGL] effect: the context is kept as soon as it exists,
    the program only when both shaders compile and the program links. *)
Definition initWebGL (answers : WebGLAnswers) (st : EditorState) : EditorState :=
  if negb (canvasMounted answers) then st
  else if negb (contextCreated answers) then st
  else
    let st := setGl (Some []) st in
    if negb (vertexShaderCompiled answers) || negb (fragmentShaderCompiled answers) then st
    else if negb (programCreated answers) then st
    else if negb (programLinked answers) then st
    else setProgram (Some LinkedProgram) st.

(** [[...l].sort(cmp)]: the sort is stable; [cmp a b] stands for the sign
    test of the comparator's result ([cmp a b = true] when it is [<= 0]). *)
Fixpoint sort_insert {A} (cmp : A -> A -> bool) (a : A) (l : list A) : list A :=
  match l with
  | [] => [a]
  | b :: l' => if cmp a b then a :: l else b :: sort_insert cmp a l'
  end.

Definition Array_sort {A} (cmp : A -> A -> bool) (l : list A) : list A :=
  fold_right (sort_insert cmp) [] l.

(** [(a, b) => a.zIndex - b.zIndex] and [(a, b) => b.zIndex - a.zIndex] *)
Definition byZ_ascending (a b : ImageLayer) : bool := (zIndex a - zIndex b <=? 0)%Z.
Definition byZ_descending (a b : ImageLayer) : bool := (zIndex b - zIndex a <=? 0)%Z.

(** *** Rendering: the matrix handed to the vertex shader for a layer *)

Definition viewMatrix (v : View) : m3 :=
  let matrix := m3_translation (view_x v) (view_y v) in
  m3_multiply matrix (m3_scale (view_scale v) (view_scale v)).

Definition modelMatrix (layer : ImageLayer) : m3 :=
  let m := m3_translation (x layer) (y layer) in
  let m := m3_multiply m (m3_rotation (rotation layer)) in
  m3_multiply m (m3_scale (width layer * scale layer) (height layer * scale layer)).

Definition finalMatrix (drawingBufferWidth drawingBufferHeight : N) (v : View)
    (layer : ImageLayer) : m3 :=
  let projection := m3_projection drawingBufferWidth drawingBufferHeight in
  let viewProjection := m3_multiply projection (viewMatrix v) in
  m3_multiply viewProjection (modelMatrix layer).

(** One [drawArrays] call of [render]: the bound texture and the uniforms. *)
Record DrawCall : Type := {
  dc_texture : WebGLTexture;
  dc_matrix : m3;
  dc_distortion : N;
  dc_opacity : N
}.

(** [render]: the draw calls of one frame, in the order they are issued;
    none without a context or without a program. *)
Definition render (drawingBufferWidth drawingBufferHeight : N) (st : EditorState)
    : list DrawCall :=
  match glRef st, programRef st with
  | Some _, Some _ =>
      let sorted := Array_sort byZ_ascending (layers st) in
      flat_map (fun layer =>
        match texture layer with
        | None => []
        | Some t =>
            [ {| dc_texture := t;
                 dc_matrix := finalMatrix drawingBufferWidth drawingBufferHeight (view st) layer;
                 dc_distortion := distortion layer;
                 dc_opacity := opacity layer |} ]
        end) sorted
  | _, _ => []
  end.

(** Where the vertex [p] of a layer's unit quad lands on the canvas, in
    canvas pixels: the model and the view transform of [render], before
    the projection to clip space. *)
Definition placeOnCanvas (v : View) (layer : ImageLayer) (p : vec2) : vec2 :=
  VS_SOURCE (m3_multiply (viewMatrix v) (modelMatrix layer)) p.

End Code.

(** ** The event handlers *)

Section Handlers.

Context {N : Type} `{Arith N}.
Local Open Scope num_scope.

(** *** The view: wheel, zoom buttons, reset *)

Record WheelEvent : Type := {
  ctrlKey : bool;
  wh_clientX : N;
  wh_clientY : N;
  deltaX : N;
  deltaY : N
}.

Record DOMRect : Type := { left : N; top : N }.

(** The functional update [handleWheel] passes to [setView]. *)
Definition handleWheel (rect : DOMRect) (e : WheelEvent) (prevView : View (N:=N)) : View :=
  if ctrlKey e then
    (* ZOOM *)
    let zoomIntensity := dec 1 100 in
    let mouseX := wh_clientX e - left rect in
    let mouseY := wh_clientY e - top rect in
    let delta := - deltaY e in
    let scaleFactor := Math_exp (delta * zoomIntensity) in
    let newScale := view_scale prevView * scaleFactor in
    let newScale := Math_max (dec 1 10) (Math_min newScale (of_Z 10)) in
    let worldX := (mouseX - view_x prevView) / view_scale prevView in
    let worldY := (mouseY - view_y prevView) / view_scale prevView in
    let newX := mouseX - worldX * newScale in
    let newY := mouseY - worldY * newScale in
    {| view_x := newX; view_y := newY; view_scale := newScale |}
  else
    (* PAN *)
    {| view_x := view_x prevView - deltaX e;
       view_y := view_y prevView - deltaY e;
       view_scale := view_scale prevView |}.

(** The [+] and [-] buttons: [v => ({...v, scale: v.scale * 1.1})] and
    [v => ({...v, scale: v.scale / 1.1})]. *)
Definition zoomInButton (v : View (N:=N)) : View :=
  {| view_x := view_x v; view_y := view_y v; view_scale := view_scale v * dec 11 10 |}.

Definition zoomOutButton (v : View (N:=N)) : View :=
  {| view_x := view_x v; view_y := view_y v; view_scale := view_scale v / dec 11 10 |}.

(** The [Reset View] button. *)
Definition resetView : View (N:=N) :=
  {| view_x := of_Z 0; view_y := of_Z 0; view_scale := of_Z 1 |}.

(** *** The pointer: hit test, drag and pan *)

Record MouseEvent : Type := {
  button : Z;
  clientX : N;
  clientY : N
}.

(** The world point under a canvas point: [(mx - view.x) / view.scale],
    as [handleMouseDown] and [handleWheel] both compute it. *)
Definition worldPoint (v : View (N:=N)) (mx my : N) : N * N :=
  ((mx - view_x v) / view_scale v, (my - view_y v) / view_scale v).

(** The body of the [for] loop of [handleMouseDown] for one layer: the
    world point [(wx, wy)] taken back to the layer's unit quad. *)
Definition localPoint (wx wy : N) (layer : ImageLayer (N:=N)) : N * N :=
  (* 1. Translate (-x, -y) *)
  let lx1 := wx - x layer in
  let ly1 := wy - y layer in
  (* 2. Rotate (-r) *)
  let cos := Math_cos (- rotation layer) in
  let sin := Math_sin (- rotation layer) in
  let lx2 := lx1 * cos - ly1 * sin in
  let ly2 := lx1 * sin + ly1 * cos in
  (* 3. Scale inverse *)
  let localX := lx2 / (width layer * scale layer) in
  let localY := ly2 / (height layer * scale layer) in
  (localX, localY).

(** The bounds check [Math.abs(localX) <= 0.5 && Math.abs(localY) <= 0.5]. *)
Definition hits (wx wy : N) (layer : ImageLayer (N:=N)) : bool :=
  let '(localX, localY) := localPoint wx wy layer in
  (Math_abs localX <=? dec 5 10) && (Math_abs localY <=? dec 5 10).

(** The loop: the first layer hit, in the order given. *)
Fixpoint hitLoop (wx wy : N) (sortedReverse : list (ImageLayer (N:=N))) : option string :=
  match sortedReverse with
  | [] => None
  | layer :: rest => if hits wx wy layer then Some (id layer) else hitLoop wx wy rest
  end.

(** The world point under the canvas point [(mx, my)] and the hit test
    of [handleMouseDown] at it. *)
Definition hitTest (v : View (N:=N)) (ls : list (ImageLayer (N:=N))) (mx my : N) : option string :=
  let wx := (mx - view_x v) / view_scale v in
  let wy := (my - view_y v) / view_scale v in
  let sortedReverse := Array_sort byZ_descending ls in
  hitLoop wx wy sortedReverse.

(** [layers.find(l => l.id === i)] *)
Definition findLayer (i : string) (ls : list (ImageLayer (N:=N))) : option ImageLayer :=
  find (fun l => String.eqb (id l) i) ls.

Definition startPanning (e : MouseEvent) (st : EditorState (N:=N)) : EditorState :=
  setInitialView {| pt_x := view_x (view st); pt_y := view_y (view st) |}
    (setDragStart {| pt_x := clientX e; pt_y := clientY e |}
      (setIsPanning true st)).

(** [handleMouseDown]; [rect] is [canvasRef.current?.getBoundingClientRect()]. *)
Definition handleMouseDown (rect : option DOMRect) (e : MouseEvent)
    (st : EditorState (N:=N)) : EditorState :=
  match rect with
  | None => st
  | Some rect =>
      let isMiddleClick := Z.eqb (button e) 1 in
      let isPanTrigger := isSpacePressed st || isMiddleClick in
      if isPanTrigger then startPanning e st
      else
        let mx := clientX e - left rect in
        let my := clientY e - top rect in
        let hitLayerId := hitTest (view st) (layers st) mx my in
        match hitLayerId with
        | Some i =>
            if String.eqb i EmptyString then
              (* an empty id is falsy: the else branch *)
              startPanning e (setActiveLayerId None st)
            else
              let st1 := setDragStart {| pt_x := clientX e; pt_y := clientY e |}
                           (setIsDragging true (setActiveLayerId (Some i) st)) in
              match findLayer i (layers st) with
              | Some layer => setInitialPos {| pt_x := x layer; pt_y := y layer |} st1
              | None => st1
              end
        | None =>
            (* Deselect and Pan *)
            startPanning e (setActiveLayerId None st)
        end
  end.

(** *** The layer list *)

(** [updateLayer] *)
Definition updateLayer (i : string) (updates : PartialLayer (N:=N))
    (st : EditorState (N:=N)) : EditorState :=
  setLayers (fun prev => map (fun l => if String.eqb (id l) i then spread l updates else l) prev) st.

(** [deleteLayer] *)
Definition deleteLayer (i : string) (st : EditorState (N:=N)) : EditorState :=
  let st1 := setLayers (fun prev => filter (fun l => negb (String.eqb (id l) i)) prev) st in
  match activeLayerId st with
  | Some a => if String.eqb a i then setActiveLayerId None st1 else st1
  | None => st1
  end.

(** [handleMouseMove] and [handleMouseUp] *)
Definition handleMouseMove (e : MouseEvent) (st : EditorState (N:=N)) : EditorState :=
  if isPanning st then
    let dx := clientX e - pt_x (dragStart st) in
    let dy := clientY e - pt_y (dragStart st) in
    setView (fun v => {| view_x := pt_x (initialView st) + dx;
                         view_y := pt_y (initialView st) + dy;
                         view_scale := view_scale v |}) st
  else
    match isDragging st, activeLayerId st with
    | true, Some a =>
        if String.eqb a EmptyString then st
        else
          let dx := (clientX e - pt_x (dragStart st)) / view_scale (view st) in
          let dy := (clientY e - pt_y (dragStart st)) / view_scale (view st) in
          updateLayer a
            {| p_id := None; p_name := None; p_image := None; p_texture := None;
               p_x := Some (pt_x (initialPos st) + dx);
               p_y := Some (pt_y (initialPos st) + dy);
               p_width := None; p_height := None; p_scale := None;
               p_rotation := None; p_distortion := None; p_opacity := None;
               p_zIndex := None |} st
    | _, _ => st
    end.

Definition handleMouseUp (st : EditorState (N:=N)) : EditorState :=
  setIsPanning false (setIsDragging false st).

(** [createTexture]: a fresh texture object of the context, or [null]
    when there is no context.  Nothing in the component deletes one. *)
Definition createTexture (st : EditorState (N:=N)) : option WebGLTexture * EditorState :=
  match glRef st with
  | None => (None, st)
  | Some live =>
      let t := S (list_max live) in
      (Some t, setGl (Some (t :: live)) st)
  end.

(** The [img.onload] callback of [handleFileUpload] for one file.  It
    reads [canvasSize] and [layers] from [seen], the state of the render
    whose handler started the upload; [newId] stands for
    [Math.random().toString(36).substr(2, 9)]. *)
Definition addLayer (seen : EditorState (N:=N)) (fileName newId : string)
    (img : HTMLImageElement (N:=N)) (st : EditorState (N:=N)) : EditorState :=
  let '(tex, st1) := createTexture st in
  let newLayer :=
    {| id := newId;
       name := fileName;
       image := img;
       texture := tex;
       x := w (canvasSize seen) / of_Z 2;
       y := h (canvasSize seen) / of_Z 2;
       width := img_width img;
       height := img_height img;
       scale := dec 5 10;
       rotation := of_Z 0;
       distortion := of_Z 0;
       opacity := dec 8 10;
       zIndex := (Z.of_nat (List.length (layers seen)) + 1)%Z |} in
  setActiveLayerId (Some (id newLayer))
    (setLayers (fun prev => prev ++ [newLayer]) st1).

End Handlers.

(** *** Fit to all *)

Section FitToScreen.

Context {N : Type} `{Arith N}.
Local Open Scope num_scope.

(** [Infinity] and [isFinite] exist in floating point only: they are
    parameters here. *)
Variable Infinity : N.
Variable isFinite : N -> bool.

Record Bounds : Type := { minX : N; maxX : N; minY : N; maxY : N }.

(** Corners of the unit quad centred at the origin. *)
Definition corners : list (Point (N:=N)) :=
  [ {| pt_x := - dec 5 10; pt_y := - dec 5 10 |};
    {| pt_x := dec 5 10; pt_y := - dec 5 10 |};
    {| pt_x := dec 5 10; pt_y := dec 5 10 |};
    {| pt_x := - dec 5 10; pt_y := dec 5 10 |} ].

(** The body of [corners.forEach] *)
Definition growBounds (layer : ImageLayer (N:=N)) (b : Bounds) (corner : Point (N:=N)) : Bounds :=
  (* 1. Scale *)
  let x0 := pt_x corner * width layer * scale layer in
  let y0 := pt_y corner * height layer * scale layer in
  (* 2. Rotate *)
  let cos := Math_cos (rotation layer) in
  let sin := Math_sin (rotation layer) in
  let rx := x0 * cos - y0 * sin in
  let ry := x0 * sin + y0 * cos in
  (* 3. Translate *)
  let wx := rx + x layer in
  let wy := ry + y layer in
  {| minX := if wx <? minX b then wx else minX b;
     maxX := if wx >? maxX b then wx else maxX b;
     minY := if wy <? minY b then wy else minY b;
     maxY := if wy >? maxY b then wy else maxY b |}.

Definition layerBounds (ls : list (ImageLayer (N:=N))) : Bounds :=
  fold_left (fun b layer => fold_left (growBounds layer) corners b) ls
    {| minX := Infinity; maxX := - Infinity; minY := Infinity; maxY := - Infinity |}.

(** The view [fitToScreen] sets. *)
Definition fitToScreen (st : EditorState (N:=N)) : EditorState :=
  match layers st with
  | [] => setView (fun _ => resetView) st
  | _ =>
      let b := layerBounds (layers st) in
      let boundsW := maxX b - minX b in
      let boundsH := maxY b - minY b in
      let centerX := (minX b + maxX b) / of_Z 2 in
      let centerY := (minY b + maxY b) / of_Z 2 in
      let padding := of_Z 50 in
      let availW := w (canvasSize st) - padding * of_Z 2 in
      let availH := h (canvasSize st) - padding * of_Z 2 in
      let scaleW := availW / boundsW in
      let scaleH := availH / boundsH in
      let newScale := Math_min scaleW scaleH in
      (* Safety check *)
      let newScale :=
        if negb (isFinite newScale) || (newScale =? of_Z 0) then of_Z 1 else newScale in
      (* Pan to center *)
      let newX := (w (canvasSize st) / of_Z 2) - (centerX * newScale) in
      let newY := (h (canvasSize st) / of_Z 2) - (centerY * newScale) in
      setView (fun _ => {| view_x := newX; view_y := newY; view_scale := newScale |}) st
  end.

End FitToScreen.

(** *** What a fragment leaves in the frame buffer *)

Section FrameBuffer.

Context {N : Type} `{Arith N}.
Local Open Scope num_scope.

(** [gl.blendFunc(gl.SRC_ALPHA, gl.ONE_MINUS_SRC_ALPHA)], enabled in the
    panorama editor: every channel is [src * src.a + dst * (1 - src.a)]. *)
Definition blend (src dst : vec4 (N:=N)) : vec4 :=
  let sa := ca src in
  let da := of_Z 1 - ca src in
  Vec4 (cr src * sa + cr dst * da) (cg src * sa + cg dst * da)
       (cb src * sa + cb dst * da) (ca src * sa + ca dst * da).

(** The pixel after a fragment of the panorama editor (blending on): a
    discarded fragment writes nothing. *)
Definition writeBlended (dst : vec4 (N:=N)) (f : fragment (N:=N)) : vec4 :=
  match f with
  | discard => dst
  | gl_FragColor src => blend src dst
  end.

(** The pixel after a fragment of the single-image corrector (blending
    never enabled there): the colour replaces the pixel. *)
Definition writePlain (dst : vec4 (N:=N)) (f : fragment (N:=N)) : vec4 :=
  match f with
  | discard => dst
  | gl_FragColor src => src
  end.

(** [gl.clearColor(0, 0, 0, 0)] *)
Definition clearColor : vec4 (N:=N) := Vec4 (of_Z 0) (of_Z 0) (of_Z 0) (of_Z 0).

End FrameBuffer.

(** ** The two readings of the arithmetic *)

(** *** Exact arithmetic over the reals *)

Definition Rltb (a b : R) : bool := if Rlt_dec a b then true else false.
Definition Rleb (a b : R) : bool := if Rle_dec a b then true else false.
Definition Reqb (a b : R) : bool := if Req_dec_T a b then true else false.

Definition ideal : Arith R :=
  {| of_Z := IZR;
     add := Rplus; sub := Rminus; mul := Rmult; div := Rdiv; neg := Ropp;
     ltb := Rltb; leb := Rleb; eqb := Reqb;
     Math_abs := Rabs; Math_min := Rmin; Math_max := Rmax;
     Math_cos := cos; Math_sin := sin; Math_exp := exp |}.

(** *** binary64 *)

Definition float_of_Z (z : Z) : float :=
  match z with
  | Z0 => PrimFloat.zero
  | Zpos _ => PrimFloat.of_uint63 (Uint63.of_Z z)
  | Zneg p => PrimFloat.opp (PrimFloat.of_uint63 (Uint63.of_Z (Zpos p)))
  end.

(** [Math.min] and [Math.max]: [NaN] when an argument is, and [-0] below [+0]. *)
Definition float_min (a b : float) : float :=
  if PrimFloat.is_nan a || PrimFloat.is_nan b then PrimFloat.nan
  else if PrimFloat.ltb a b then a
  else if PrimFloat.ltb b a then b
  else if PrimFloat.get_sign a then a else b.

Definition float_max (a b : float) : float :=
  if PrimFloat.is_nan a || PrimFloat.is_nan b then PrimFloat.nan
  else if PrimFloat.ltb a b then b
  else if PrimFloat.ltb b a then a
  else if PrimFloat.get_sign a then b else a.

Definition binary64 (cos sin exp : float -> float) : Arith float :=
  {| of_Z := float_of_Z;
     add := PrimFloat.add; sub := PrimFloat.sub; mul := PrimFloat.mul;
     div := PrimFloat.div; neg := PrimFloat.opp;
     ltb := PrimFloat.ltb; leb := PrimFloat.leb; eqb := PrimFloat.eqb;
     Math_abs := PrimFloat.abs; Math_min := float_min; Math_max := float_max;
     Math_cos := cos; Math_sin := sin; Math_exp := exp |}.

(** ** Predicates and scenarios of the statements *)

#[global] Existing Instance ideal.

(** A source coordinate off the texture, in either axis. *)
Definition outOfUnitSquare (uv : vec2 (N:=R)) : Prop :=
  (vx uv < 0 \/ vx uv > 1 \/ vy uv < 0 \/ vy uv > 1)%R.

(** The zoom range of the wheel handler. *)
Definition zoomInRange (v : View (N:=R)) : Prop :=
  (1 / 10 <= view_scale v <= 10)%R.

(** The texture coordinates of the four corners of the full-screen quad
    ([texCoordBuffer] holds them). *)
Definition cornerTexCoords : list (vec2 (N:=R)) :=
  [ Vec2 0%R 1%R; Vec2 1%R 1%R; Vec2 0%R 0%R; Vec2 1%R 0%R ].

(** The selection, when there is one, names a layer of the list. *)
Definition selectionPresent {N} (st : EditorState (N:=N)) : Prop :=
  forall a, activeLayerId st = Some a -> exists l, In l (layers st) /\ id l = a.

Definition photo : HTMLImageElement (N:=R) :=
  {| img_src := "data:image/png"; img_width := 200%R; img_height := 100%R |}.

(** Every call of the initialisation succeeds. *)
Definition allSucceed : WebGLAnswers :=
  {| canvasMounted := true; contextCreated := true;
     vertexShaderCompiled := true; fragmentShaderCompiled := true;
     programCreated := true; programLinked := true |}.

(** The shaders do not compile. *)
Definition shadersFail : WebGLAnswers :=
  {| canvasMounted := true; contextCreated := true;
     vertexShaderCompiled := false; fragmentShaderCompiled := false;
     programCreated := true; programLinked := true |}.

(** The editor once its WebGL context exists and its program is linked,
    before any upload. *)
Definition ready : EditorState (N:=R) := initWebGL allSucceed initialState.

(** An upload that completes while the state its handler saw is current. *)
Definition upload (fileName newId : string) (st : EditorState (N:=R)) : EditorState :=
  addLayer st fileName newId photo st.

(** Three uploads, then the two lowest layers deleted. *)
Definition afterUploadsAndDeletes : EditorState (N:=R) :=
  deleteLayer "b"
    (deleteLayer "a"
      (upload "c.png" "c" (upload "b.png" "b" (upload "a.png" "a" ready)))).

(** [{scale: -1, opacity: 2}] *)
Definition outOfRange : PartialLayer (N:=R) :=
  {| p_id := None; p_name := None; p_image := None; p_texture := None;
     p_x := None; p_y := None; p_width := None; p_height := None;
     p_scale := Some (-1)%R; p_rotation := None; p_distortion := None;
     p_opacity := Some 2%R; p_zIndex := None |}.

(** A 200 x 100 image at scale 1, turned by a quarter of [PI]. *)
Definition rotatedLayer : ImageLayer (N:=R) :=
  {| id := "a"; name := "a.png"; image := photo; texture := Some 1%nat;
     x := 0%R; y := 0%R; width := 200%R; height := 100%R; scale := 1%R;
     rotation := (PI / 4)%R; distortion := 0%R; opacity := 1%R; zIndex := 1 |}.

(** A binary64 value that is [NaN] or an infinity. *)
Definition nonFinite (f : float) : Prop :=
  Prim2SF f = S754_nan \/ exists s, Prim2SF f = S754_infinity s.

(** A layer one of whose extents [width * scale], [height * scale] is zero. *)
Definition degenerate (layer : ImageLayer (N:=float)) : Prop :=
  PrimFloat.eqb (PrimFloat.mul (width layer) (scale layer)) PrimFloat.zero = true
  \/ PrimFloat.eqb (PrimFloat.mul (height layer) (scale layer)) PrimFloat.zero = true.

Definition pixel (wd ht : float) : HTMLImageElement (N:=float) :=
  {| img_src := "data:image/png"; img_width := wd; img_height := ht |}.

(** A 10 x 10 image at scale 1, not turned. *)
Definition smallLayer : ImageLayer (N:=float) :=
  {| id := "s"; name := "s.png"; image := pixel 10%float 10%float; texture := Some 1%nat;
     x := 0%float; y := 0%float; width := 10%float; height := 10%float;
     scale := 1%float; rotation := 0%float; distortion := 0%float;
     opacity := 1%float; zIndex := 1 |}.

(** An image of width 0. *)
Definition flatLayer : ImageLayer (N:=float) :=
  {| id := "f"; name := "f.png"; image := pixel 0%float 10%float; texture := Some 1%nat;
     x := 0%float; y := 0%float; width := 0%float; height := 10%float;
     scale := 1%float; rotation := 0%float; distortion := 0%float;
     opacity := 1%float; zIndex := 1 |}.

(** Unfolds the operations of [Arith] at the instance [ideal]. *)
Ltac exact_arith :=
  cbv [of_Z add sub mul div neg ltb leb eqb Math_abs Math_min Math_max
       Math_cos Math_sin Math_exp dec ideal] in *.

(** ** More of the editor: keyboard, reordering, the draw list *)

Section MoreHandlers.

Context {N : Type} `{Arith N}.
Local Open Scope num_scope.

Definition setIsSpacePressed (b : bool) (st : EditorState (N:=N)) :=
  {| layers := layers st; activeLayerId := activeLayerId st;
     isDragging := isDragging st; isPanning := isPanning st;
     isSpacePressed := b; dragStart := dragStart st;
     initialPos := initialPos st; initialView := initialView st;
     canvasSize := canvasSize st; view := view st; glRef := glRef st;
     programRef := programRef st |}.

Definition setCanvasSize (sz : Size (N:=N)) (st : EditorState (N:=N)) :=
  {| layers := layers st; activeLayerId := activeLayerId st;
     isDragging := isDragging st; isPanning := isPanning st;
     isSpacePressed := isSpacePressed st; dragStart := dragStart st;
     initialPos := initialPos st; initialView := initialView st;
     canvasSize := sz; view := view st; glRef := glRef st;
     programRef := programRef st |}.

(** What the key listeners read of a [KeyboardEvent]; [targetTagName] is
    [(e.target as HTMLElement).tagName]. *)
Record KeyboardEvent : Type := {
  code : string;
  repeat : bool;
  targetTagName : string
}.

Definition handleKeyDown (e : KeyboardEvent) (st : EditorState (N:=N)) : EditorState :=
  if String.eqb (code e) "Space" && negb (repeat e)
     && negb (String.eqb (targetTagName e) "INPUT")
  then setIsSpacePressed true st
  else st.

Definition handleKeyUp (e : KeyboardEvent) (st : EditorState (N:=N)) : EditorState :=
  if String.eqb (code e) "Space" then setIsSpacePressed false st else st.

(** The callback of the [ResizeObserver] for one entry. *)
Definition handleResize (width height : N) (st : EditorState (N:=N)) : EditorState :=
  setCanvasSize {| w := width; h := height |} st.

(** [activeLayer]: [layers.find(l => l.id === activeLayerId)] *)
Definition activeLayer (st : EditorState (N:=N)) : option ImageLayer :=
  match activeLayerId st with
  | Some a => findLayer a (layers st)
  | None => None
  end.

(** *** Reordering by drag and drop in the layer list *)

(** [findIndex]: [None] stands for [-1]. *)
Fixpoint findIndex {A} (f : A -> bool) (l : list A) : option nat :=
  match l with
  | [] => None
  | a :: l' => if f a then Some 0%nat
               else match findIndex f l' with
                    | Some n => Some (S n)
                    | None => None
                    end
  end.

(** [l.splice(from, 1)]: what is left of the array. *)
Definition spliceOut {A} (from : nat) (l : list A) : list A :=
  firstn from l ++ skipn (S from) l.

(** [l.splice(to, 0, item)] *)
Definition spliceIn {A} (to : nat) (item : A) (l : list A) : list A :=
  firstn to l ++ item :: skipn to l.

Definition withZIndex (z : Z) (l : ImageLayer (N:=N)) : ImageLayer :=
  {| id := id l; name := name l; image := image l; texture := texture l;
     x := x l; y := y l; width := width l; height := height l; scale := scale l;
     rotation := rotation l; distortion := distortion l; opacity := opacity l;
     zIndex := z |}.

(** [sorted.forEach((l, i) => { l.zIndex = sorted.length - i })], from
    index [i] on, for an array of length [len]. *)
Fixpoint renumberFrom (len i : nat) (sorted : list (ImageLayer (N:=N))) : list ImageLayer :=
  match sorted with
  | [] => []
  | l :: rest => withZIndex (Z.of_nat len - Z.of_nat i) l :: renumberFrom len (S i) rest
  end.

Definition renumber (sorted : list (ImageLayer (N:=N))) : list ImageLayer :=
  renumberFrom (List.length sorted) 0 sorted.

(** The [onDrop] handler of the row shown at [index] of the layer list
    (the layers by descending [zIndex]), for the dragged id. *)
Definition onDrop (index : nat) (draggedId : string) (st : EditorState (N:=N)) : EditorState :=
  match nth_error (Array_sort byZ_descending (layers st)) index with
  | None => st
  | Some layer =>
      if String.eqb draggedId (id layer) then st
      else
        let sorted := Array_sort byZ_descending (layers st) in
        match findIndex (fun l => String.eqb (id l) draggedId) sorted with
        | None => st
        | Some fromIndex =>
            let toIndex := index in
            match nth_error sorted fromIndex with
            | None => st
            | Some item =>
                let sorted := spliceOut fromIndex sorted in
                let sorted := spliceIn toIndex item sorted in
                setLayers (fun _ => renumber sorted) st
            end
        end
  end.

(** *** The draw list of [render], layer by layer *)

Definition hasTexture (layer : ImageLayer (N:=N)) : bool :=
  match texture layer with Some _ => true | None => false end.

(** The layers [render] draws when there are a context and a program, in
    the order it draws them. *)
Definition drawnLayers (st : EditorState (N:=N)) : list ImageLayer :=
  filter hasTexture (Array_sort byZ_ascending (layers st)).

End MoreHandlers.

(** ** The single-image corrector *)

Section LensCorrector.

Context {N : Type} `{Arith N}.

(** The component's state: the chosen image, the two sliders, and the
    refs of its WebGL context and shader program ([None] until the
    initialisation sets them). *)
Record CorrectorState : Type := {
  lc_image : option (HTMLImageElement (N:=N));
  lc_strength : N;
  lc_zoom : N;
  lc_glRef : option (list WebGLTexture);
  lc_programRef : option WebGLProgram
}.

Definition correctorInitial : CorrectorState :=
  {| lc_image := None; lc_strength := of_Z 0; lc_zoom := of_Z 1;
     lc_glRef := None; lc_programRef := None |}.

(** [initWebGL] of the corrector: as in the editor, the context is kept
    as soon as it exists, the program only when both shaders compile and
    the program links. *)
Definition correctorInitWebGL (answers : WebGLAnswers) (st : CorrectorState) : CorrectorState :=
  if negb (canvasMounted answers) then st
  else if negb (contextCreated answers) then st
  else
    let st := {| lc_image := lc_image st; lc_strength := lc_strength st; lc_zoom := lc_zoom st;
                 lc_glRef := Some []; lc_programRef := lc_programRef st |} in
    if negb (vertexShaderCompiled answers) || negb (fragmentShaderCompiled answers) then st
    else if negb (programCreated answers) then st
    else if negb (programLinked answers) then st
    else {| lc_image := lc_image st; lc_strength := lc_strength st; lc_zoom := lc_zoom st;
            lc_glRef := lc_glRef st; lc_programRef := Some LinkedProgram |}.

(** The [img.onload] callback of [handleFileChange]. *)
Definition imageLoaded (img : HTMLImageElement (N:=N)) (st : CorrectorState) : CorrectorState :=
  {| lc_image := Some img; lc_strength := of_Z 0; lc_zoom := of_Z 1;
     lc_glRef := lc_glRef st; lc_programRef := lc_programRef st |}.

(** The sliders and the [Reset Values] button. *)
Definition setStrength (k : N) (st : CorrectorState) : CorrectorState :=
  {| lc_image := lc_image st; lc_strength := k; lc_zoom := lc_zoom st;
     lc_glRef := lc_glRef st; lc_programRef := lc_programRef st |}.

Definition setZoom (z : N) (st : CorrectorState) : CorrectorState :=
  {| lc_image := lc_image st; lc_strength := lc_strength st; lc_zoom := z;
     lc_glRef := lc_glRef st; lc_programRef := lc_programRef st |}.

Definition resetValues (st : CorrectorState) : CorrectorState :=
  setZoom (of_Z 1) (setStrength (of_Z 0) st).

(** The corrector's [render] at one texture coordinate: nothing is drawn
    without a context, a program or an image; otherwise the fragment of
    [fsSource] with the state's uniforms, [u_image] being the loaded
    image's texture. *)
Definition correctorRender (u_image : vec2 (N:=N) -> vec4 (N:=N)) (st : CorrectorState)
    (v_texCoord : vec2 (N:=N)) : option fragment :=
  match lc_glRef st, lc_programRef st, lc_image st with
  | Some _, Some _, Some _ => Some (fsSource u_image (lc_strength st) (lc_zoom st) v_texCoord)
  | _, _, _ => None
  end.

End LensCorrector.

(** ** More predicates of the statements *)

(** The third row of an affine matrix, as all of [m3_translation],
    [m3_rotation] and [m3_scale] have it. *)
Definition affine (m : m3 (N:=R)) : Prop :=
  e2 m = 0%R /\ e5 m = 0%R /\ e8 m = 1%R.

(** The identity matrix. *)
Definition m3_identity : m3 (N:=R) := M3 1%R 0%R 0%R 0%R 1%R 0%R 0%R 0%R 1%R.

(** A texture coordinate of the full-screen quad. *)
Definition inUnitSquare (uv : vec2 (N:=R)) : Prop :=
  (0 <= vx uv <= 1 /\ 0 <= vy uv <= 1)%R.

(** Neither dragging nor panning. *)
Definition idle {N} (st : EditorState (N:=N)) : Prop :=
  isDragging st = false /\ isPanning st = false.

(** The z-order keys of a list are its length down to 1. *)
Definition denseKeys {N} (ls : list (ImageLayer (N:=N))) : Prop :=
  map (fun l => zIndex l) ls
  = map (fun i => (Z.of_nat (List.length ls) - Z.of_nat i)%Z) (seq 0 (List.length ls)).

(** The corrector once its WebGL context exists and its program is
    linked, before any image is chosen. *)
Definition correctorReady : CorrectorState (N:=R) :=
  correctorInitWebGL allSucceed correctorInitial.

(** The canvas at the origin of the page. *)
Definition canvasRect : DOMRect (N:=R) := {| left := 0%R; top := 0%R |}.

(** A left-button press at the centre of [uprightLayer]. *)
Definition pressAtCentre : MouseEvent (N:=R) :=
  {| button := 0; clientX := 50%R; clientY := 60%R |}.

(** An upright layer with a texture. *)
Definition uprightLayer : ImageLayer (N:=R) :=
  {| id := "u"; name := "u.png"; image := photo; texture := Some 1%nat;
     x := 50%R; y := 60%R; width := 200%R; height := 100%R; scale := 1%R;
     rotation := 0%R; distortion := 0%R; opacity := 1%R; zIndex := 1 |}.

(** The editor with [uprightLayer] as its only layer. *)
Definition oneUpright : EditorState (N:=R) := setLayers (fun _ => [uprightLayer]) ready.

(** Two files chosen together: both uploads read the layers of the same
    render. *)
Definition tiedUploads : EditorState (N:=R) :=
  addLayer ready "b.png" "b" photo (addLayer ready "a.png" "a" photo ready).

(** An upload in an editor whose shaders did not compile. *)
Definition noProgram : EditorState (N:=R) :=
  upload "a.png" "a" (initWebGL shadersFail initialState).

(** Three uploads, one after the other. *)
Definition threeLayers : EditorState (N:=R) :=
  upload "c.png" "c" (upload "b.png" "b" (upload "a.png" "a" ready)).

(** The layer shown in the first row of the layer list of [threeLayers]. *)
Definition topRow : ImageLayer (N:=R) :=
  nth 0 (Array_sort byZ_descending (layers threeLayers)) rotatedLayer.

(** The space bar pressed on the page. *)
Definition spaceKey : KeyboardEvent :=
  {| code := "Space"; repeat := false; targetTagName := "BODY" |}.

(** ** Facts shared by the theorems *)

Lemma Rltb_true (a b : R) : (a < b)%R -> Rltb a b = true.
Proof. intros Hab. unfold Rltb. destruct (Rlt_dec a b); [reflexivity | contradiction]. Qed.

Lemma Rltb_false (a b : R) : (b <= a)%R -> Rltb a b = false.
Proof. intros Hab. unfold Rltb. destruct (Rlt_dec a b); [lra | reflexivity]. Qed.

Lemma Rleb_true (a b : R) : (a <= b)%R -> Rleb a b = true.
Proof. intros Hab. unfold Rleb. destruct (Rle_dec a b); [reflexivity | contradiction]. Qed.

Lemma Rleb_false (a b : R) : (b < a)%R -> Rleb a b = false.
Proof. intros Hab. unfold Rleb. destruct (Rle_dec a b); [lra | reflexivity]. Qed.

Lemma Rdiv_eq_num (a b d : R) : a = b -> (a / d = b / d)%R.
Proof. intros ->. reflexivity. Qed.

Lemma clamp_range (s : R) : (1 / 10 <= Rmax (1 / 10) (Rmin s 10) <= 10)%R.
Proof.
  unfold Rmax, Rmin.
  destruct (Rle_dec s 10); destruct (Rle_dec (1 / 10) _); lra.
Qed.

Section SortFacts.

Variable A : Type.
Variable cmp : A -> A -> bool.

Lemma sort_insert_Forall (P : A -> Prop) (a : A) (l : list A) :
  P a -> Forall P l -> Forall P (sort_insert cmp a l).
Proof.
  intros Pa Pl. induction Pl as [| b l Pb Pl IH]; cbn.
  - constructor; [exact Pa | constructor].
  - destruct (cmp a b).
    + constructor; [exact Pa | constructor; assumption].
    + constructor; assumption.
Qed.

Lemma Array_sort_Forall (P : A -> Prop) (l : list A) :
  Forall P l -> Forall P (Array_sort cmp l).
Proof.
  intros Pl. induction Pl as [| a l Pa Pl IH]; cbn.
  - constructor.
  - apply sort_insert_Forall; assumption.
Qed.

Lemma Array_sort_singleton (a : A) : Array_sort cmp [a] = [a].
Proof. reflexivity. Qed.

End SortFacts.

(** ** Theorems in exact arithmetic *)

Module Ideal.

Local Open Scope R_scope.

(** *** The projection matrix *)

(** C8, amended: in exact arithmetic, for positive [width] and [height],
    [m3_projection width height], applied as the vertex shader applies
    [u_matrix], sends the pixel [(0, 0)] to [(-1, 1)] and the pixel
    [(width, height)] to [(1, -1)]. *)
Theorem projection_corners (width height : R) :
  0 < width -> 0 < height ->
  VS_SOURCE (m3_projection width height) (Vec2 0 0) = Vec2 (-1) 1 /\
  VS_SOURCE (m3_projection width height) (Vec2 width height) = Vec2 1 (-1).
Proof.
  intros Hw Hh.
  unfold VS_SOURCE, mat3_mul_vec3, m3_projection.
  cbn [e0 e1 e2 e3 e4 e5 e6 e7 e8 vx vy]. exact_arith.
  split; f_equal; field; lra.
Qed.

Lemma projection_corners_witness :
  VS_SOURCE (m3_projection 800 600) (Vec2 0 0) = Vec2 (-1) 1 /\
  VS_SOURCE (m3_projection 800 600) (Vec2 800 600) = Vec2 1 (-1).
Proof. apply (@projection_corners 800 600); lra. Defined.

(** In between the projection is [x' = x / width * 2 - 1] and
    [y' = 1 - y / height * 2], as the comment of [m3_projection] says. *)
Lemma projection_formula (width height px py : R) :
  width <> 0 -> height <> 0 ->
  VS_SOURCE (m3_projection width height) (Vec2 px py)
  = Vec2 (px / width * 2 - 1) (1 - py / height * 2).
Proof.
  intros Hw Hh.
  unfold VS_SOURCE, mat3_mul_vec3, m3_projection.
  cbn [e0 e1 e2 e3 e4 e5 e6 e7 e8 vx vy]. exact_arith.
  f_equal; field; assumption.
Qed.

(** *** The edge test *)

Lemma fs_uv_formula (k zoom u v : R) :
  fs_uv k zoom (Vec2 u v)
  = Vec2 ((u - 5 / 10) * (1 + k * ((u - 5 / 10) * (u - 5 / 10) + (v - 5 / 10) * (v - 5 / 10))) / zoom + 5 / 10)
         ((v - 5 / 10) * (1 + k * ((u - 5 / 10) * (u - 5 / 10) + (v - 5 / 10) * (v - 5 / 10))) / zoom + 5 / 10).
Proof. reflexivity. Qed.

Lemma outside_false (uv : vec2 (N:=R)) :
  0 <= vx uv <= 1 -> 0 <= vy uv <= 1 -> outside uv = false.
Proof.
  intros [Hx0 Hx1] [Hy0 Hy1]. unfold outside. exact_arith.
  rewrite !Rltb_false by assumption. reflexivity.
Qed.

Lemma outside_true (uv : vec2 (N:=R)) : outOfUnitSquare uv -> outside uv = true.
Proof.
  intros Ho. unfold outside. exact_arith.
  destruct Ho as [Ho | [Ho | [Ho | Ho]]]; rewrite (Rltb_true Ho);
    rewrite ?orb_true_r; reflexivity.
Qed.

(** *** The single-image shader at [k = -1] *)

(** C1, refuted as stated: at [k = -1] and zoom 1 the corner with
    texture coordinate [(0, 0)] looks up the source at [(1/4, 1/4)],
    inside the unit square: the edge test fails and the pixel is the
    texture's colour there, not the transparent one. *)
Lemma corner_at_minus1_is_sampled :
  fs_uv (-1) 1 (Vec2 0 0) = Vec2 (1 / 4) (1 / 4)
  /\ outside (fs_uv (-1) 1 (Vec2 0 0)) = false
  /\ fsSource (fun uv => Vec4 (vx uv) (vy uv) 0 1) (-1) 1 (Vec2 0 0)
     = gl_FragColor (Vec4 (1 / 4) (1 / 4) 0 1).
Proof.
  assert (E : fs_uv (N:=R) (-1) 1 (Vec2 0 0) = Vec2 (1 / 4) (1 / 4)).
  { rewrite fs_uv_formula. f_equal; field. }
  assert (O : outside (fs_uv (N:=R) (-1) 1 (Vec2 0 0)) = false).
  { rewrite E. apply outside_false; cbn [vx vy]; lra. }
  repeat split; [exact E | exact O |].
  unfold fsSource. rewrite O, E. reflexivity.
Qed.

(** C1, amended: at [k = -1] and zoom 1 every corner texture coordinate
    [c] looks up the source half-way between itself and the centre, at
    [(c + 1/2) / 2], inside the unit square, so the pixel is the
    texture's colour there; the centre looks up itself. *)
Theorem corners_at_minus1 (u_image : vec2 (N:=R) -> vec4 (N:=R)) :
  Forall (fun c =>
            fs_uv (-1) 1 c = Vec2 ((vx c + 1 / 2) / 2) ((vy c + 1 / 2) / 2)
            /\ outside (fs_uv (-1) 1 c) = false
            /\ fsSource u_image (-1) 1 c = gl_FragColor (u_image (fs_uv (-1) 1 c)))
         cornerTexCoords
  /\ fs_uv (-1) 1 (Vec2 (1 / 2) (1 / 2)) = Vec2 (1 / 2) (1 / 2)
  /\ fsSource u_image (-1) 1 (Vec2 (1 / 2) (1 / 2)) = gl_FragColor (u_image (Vec2 (1 / 2) (1 / 2))).
Proof.
  assert (corner : forall u v, (u = 0 \/ u = 1) -> (v = 0 \/ v = 1) ->
            fs_uv (N:=R) (-1) 1 (Vec2 u v) = Vec2 ((u + 1 / 2) / 2) ((v + 1 / 2) / 2)).
  { intros u v Hu Hv. rewrite fs_uv_formula.
    destruct Hu as [-> | ->]; destruct Hv as [-> | ->]; f_equal; field. }
  assert (inside : forall u v, (u = 0 \/ u = 1) -> (v = 0 \/ v = 1) ->
            outside (fs_uv (N:=R) (-1) 1 (Vec2 u v)) = false).
  { intros u v Hu Hv. rewrite (corner u v Hu Hv).
    apply outside_false; cbn [vx vy]; destruct Hu as [-> | ->]; destruct Hv as [-> | ->]; lra. }
  assert (centre : fs_uv (N:=R) (-1) 1 (Vec2 (1 / 2) (1 / 2)) = Vec2 (1 / 2) (1 / 2)).
  { rewrite fs_uv_formula. f_equal; field. }
  split; [| split; [exact centre |]].
  - unfold cornerTexCoords.
    repeat (apply Forall_cons; [ cbn [vx vy]; split; [apply corner; auto | split; [apply inside; auto |] ] |]);
      try apply Forall_nil;
      unfold fsSource; rewrite inside by auto; reflexivity.
  - unfold fsSource. rewrite centre.
    rewrite outside_false by (cbn [vx vy]; lra). reflexivity.
Qed.

(** At [k = -1] and zoom 1 no texture coordinate of the quad is off the
    texture: the factor [1 - r2] lies between [1/2] and [1]. *)
Lemma minus1_never_transparent (u v : R) :
  0 <= u <= 1 -> 0 <= v <= 1 -> outside (fs_uv (-1) 1 (Vec2 u v)) = false.
Proof.
  intros Hu Hv. rewrite fs_uv_formula. apply outside_false; cbn [vx vy].
  - set (a := u - 5 / 10). set (b := v - 5 / 10).
    assert (Ha : - (1 / 2) <= a <= 1 / 2) by (unfold a; lra).
    assert (Hb : - (1 / 2) <= b <= 1 / 2) by (unfold b; lra).
    assert (Hr : 0 <= a * a + b * b <= 1 / 2) by nra.
    split; nra.
  - set (a := u - 5 / 10). set (b := v - 5 / 10).
    assert (Ha : - (1 / 2) <= a <= 1 / 2) by (unfold a; lra).
    assert (Hb : - (1 / 2) <= b <= 1 / 2) by (unfold b; lra).
    assert (Hr : 0 <= a * a + b * b <= 1 / 2) by nra.
    split; nra.
Qed.

(** At [k = 1] the corner does leave the texture. *)
Lemma corner_at_plus1_is_transparent (u_image : vec2 (N:=R) -> vec4 (N:=R)) :
  fs_uv 1 1 (Vec2 0 0) = Vec2 (- (1 / 4)) (- (1 / 4))
  /\ fsSource u_image 1 1 (Vec2 0 0) = gl_FragColor (Vec4 0 0 0 0).
Proof.
  assert (E : fs_uv (N:=R) 1 1 (Vec2 0 0) = Vec2 (- (1 / 4)) (- (1 / 4))).
  { rewrite fs_uv_formula. f_equal; field. }
  split; [exact E |].
  unfold fsSource. rewrite E, outside_true; [reflexivity |].
  left. cbn [vx]. lra.
Qed.

(** *** Pixels whose source coordinate is off the texture *)

Lemma blend_transparent (dst : vec4 (N:=R)) : blend (Vec4 0 0 0 0) dst = dst.
Proof.
  destruct dst as [r g b a]. unfold blend. cbn [cr cg cb ca]. exact_arith.
  f_equal; ring.
Qed.

(** C7: when the source coordinate a shader computes is off the texture
    in either axis, the single-image shader writes the transparent
    colour (alpha 0) and the layered shader discards the fragment,
    whatever the texture holds (it is not sampled, clamped or wrapped);
    either way the pixel gets no colour: the discarded fragment leaves
    the pixel as it was, so does the transparent colour under the
    editor's blending, and on a cleared frame both leave the same pixel. *)
Theorem off_texture_contributes_nothing
    (u_image : vec2 (N:=R) -> vec4 (N:=R)) (u_strength u_zoom u_distortion u_opacity : R)
    (t t' : vec2 (N:=R)) (dst : vec4 (N:=R)) :
  outOfUnitSquare (fs_uv u_strength u_zoom t) ->
  outOfUnitSquare (FS_uv u_distortion t') ->
  fsSource u_image u_strength u_zoom t = gl_FragColor (Vec4 0 0 0 0)
  /\ writePlain dst (fsSource u_image u_strength u_zoom t) = Vec4 0 0 0 0
  /\ FS_SOURCE u_image u_distortion u_opacity t' = discard
  /\ writeBlended dst (FS_SOURCE u_image u_distortion u_opacity t') = dst
  /\ writeBlended dst (fsSource u_image u_strength u_zoom t) = dst
  /\ writePlain clearColor (fsSource u_image u_strength u_zoom t)
     = writeBlended clearColor (FS_SOURCE u_image u_distortion u_opacity t').
Proof.
  intros Hs Hl.
  apply outside_true in Hs. apply outside_true in Hl.
  unfold fsSource, FS_SOURCE. rewrite Hs, Hl. cbn [writeBlended writePlain].
  repeat split; try reflexivity.
  apply blend_transparent.
Qed.

Lemma off_texture_witness :
  fsSource (fun _ => Vec4 1 1 1 1) 1 1 (Vec2 0 0) = gl_FragColor (Vec4 0 0 0 0)
  /\ writePlain (Vec4 1 0 0 1) (fsSource (fun _ => Vec4 1 1 1 1) 1 1 (Vec2 0 0)) = Vec4 0 0 0 0
  /\ FS_SOURCE (fun _ => Vec4 1 1 1 1) 1 1 (Vec2 0 0) = discard
  /\ writeBlended (Vec4 1 0 0 1) (FS_SOURCE (fun _ => Vec4 1 1 1 1) 1 1 (Vec2 0 0)) = Vec4 1 0 0 1
  /\ writeBlended (Vec4 1 0 0 1) (fsSource (fun _ => Vec4 1 1 1 1) 1 1 (Vec2 0 0)) = Vec4 1 0 0 1
  /\ writePlain clearColor (fsSource (fun _ => Vec4 1 1 1 1) 1 1 (Vec2 0 0))
     = writeBlended clearColor (FS_SOURCE (fun _ => Vec4 1 1 1 1) 1 1 (Vec2 0 0)).
Proof.
  apply (@off_texture_contributes_nothing
           (fun _ => Vec4 1 1 1 1) 1 1 1 1 (Vec2 0 0) (Vec2 0 0) (Vec4 1 0 0 1)).
  - left. rewrite fs_uv_formula. cbn [vx]. lra.
  - left. unfold FS_uv, dot. cbn [vx vy]. exact_arith. lra.
Defined.

(** *** The view *)

(** C5: the wheel zoom keeps the world point under the cursor: with
    [mouse = client - rect] the canvas point of the event, the world
    point [(mouse - pan) / scale] is the same before and after
    [handleWheel], for every previous view and every wheel delta. *)
Theorem zoom_keeps_world_point (rect : DOMRect (N:=R)) (cx cy dx dy : R)
    (prevView : View (N:=R)) :
  let e := {| ctrlKey := true; wh_clientX := cx; wh_clientY := cy;
              deltaX := dx; deltaY := dy |} in
  let mouseX := cx - left rect in
  let mouseY := cy - top rect in
  worldPoint (handleWheel rect e prevView) mouseX mouseY
  = worldPoint prevView mouseX mouseY.
Proof.
  intros e mouseX mouseY. unfold worldPoint, handleWheel.
  cbn [ctrlKey e wh_clientX wh_clientY deltaX deltaY view_x view_y view_scale].
  exact_arith. fold mouseX mouseY.
  set (s' := Rmax _ _).
  assert (Hs' : s' <> 0).
  { pose proof (clamp_range (view_scale prevView * exp (- dy * (1 / 100)))) as Hc.
    fold s' in Hc. lra. }
  set (wx := (mouseX - view_x prevView) / view_scale prevView).
  set (wy := (mouseY - view_y prevView) / view_scale prevView).
  f_equal; field; exact Hs'.
Qed.

(** The wheel zoom clamps, whatever the previous zoom. *)
Lemma wheel_zoom_clamped (rect : DOMRect (N:=R)) (e : WheelEvent (N:=R)) (prevView : View (N:=R)) :
  ctrlKey e = true -> zoomInRange (handleWheel rect e prevView).
Proof.
  intros Hc. unfold zoomInRange, handleWheel. rewrite Hc. cbn [view_scale].
  exact_arith. apply clamp_range.
Qed.

Lemma handleMouseMove_view_scale (m : MouseEvent (N:=R)) (st : EditorState (N:=R)) :
  view_scale (view (handleMouseMove m st)) = view_scale (view st).
Proof.
  unfold handleMouseMove. destruct (isPanning st); [reflexivity |].
  destruct (isDragging st); [| reflexivity].
  destruct (activeLayerId st) as [a |]; [| reflexivity].
  destruct (String.eqb a EmptyString); reflexivity.
Qed.

Lemma handleMouseDown_view (rect : option (DOMRect (N:=R))) (m : MouseEvent (N:=R))
    (st : EditorState (N:=R)) :
  view (handleMouseDown rect m st) = view st.
Proof.
  unfold handleMouseDown. destruct rect as [r |]; [| reflexivity].
  destruct (isSpacePressed st || Z.eqb (button m) 1); [reflexivity |].
  destruct (hitTest _ _ _ _) as [i |]; [| reflexivity].
  destruct (String.eqb i EmptyString); [reflexivity |].
  destruct (findLayer i (layers st)); reflexivity.
Qed.

(** C4 at a failing input: at zoom 10, inside the range [0.1, 10] that
    the wheel handler clamps to, the [+] button sets the zoom to 11,
    outside it. *)
Lemma zoom_in_button_leaves_range :
  zoomInRange {| view_x := 0; view_y := 0; view_scale := 10 |}
  /\ view_scale (zoomInButton {| view_x := 0; view_y := 0; view_scale := 10 |}) = 11
  /\ ~ zoomInRange (zoomInButton {| view_x := 0; view_y := 0; view_scale := 10 |}).
Proof.
  unfold zoomInRange, zoomInButton. cbn [view_scale]. exact_arith. lra.
Qed.

(** The [-] button leaves the range at its lower end: from zoom 0.1 it
    sets the zoom to 1/11. *)
Lemma zoom_out_button_leaves_range :
  zoomInRange {| view_x := 0; view_y := 0; view_scale := 1 / 10 |}
  /\ view_scale (zoomOutButton {| view_x := 0; view_y := 0; view_scale := 1 / 10 |}) = 1 / 11
  /\ ~ zoomInRange (zoomOutButton {| view_x := 0; view_y := 0; view_scale := 1 / 10 |}).
Proof.
  unfold zoomInRange, zoomOutButton. cbn [view_scale]. exact_arith.
  split; [lra |]. split; [field | lra].
Qed.

(** The other handlers keep the range: from a view whose zoom is within
    [0.1, 10], the wheel (pinch zoom or two-finger pan), the pointer
    handlers and the reset button leave the zoom within [0.1, 10]; the
    pinch zoom does so from any view. *)
Theorem zoom_range_preserved (rect : DOMRect (N:=R)) (e : WheelEvent (N:=R))
    (m : MouseEvent (N:=R)) (st : EditorState (N:=R)) :
  zoomInRange (view st) ->
  zoomInRange (view (setView (handleWheel rect e) st))
  /\ zoomInRange (view (handleMouseDown (Some rect) m st))
  /\ zoomInRange (view (handleMouseMove m st))
  /\ zoomInRange (view (handleMouseUp st))
  /\ zoomInRange (view (setView (fun _ => resetView) st))
  /\ (ctrlKey e = true -> forall prevView, zoomInRange (handleWheel rect e prevView)).
Proof.
  intros Hr.
  assert (Hwheel : zoomInRange (view (setView (handleWheel rect e) st))).
  { cbn [view setView]. destruct (ctrlKey e) eqn:Hc.
    - apply (wheel_zoom_clamped rect e (view st) Hc).
    - unfold zoomInRange, handleWheel. rewrite Hc. cbn [view_scale]. apply Hr. }
  assert (Hreset : zoomInRange (view (setView (fun _ => resetView) st))).
  { unfold zoomInRange. cbn [view setView resetView view_scale]. exact_arith. lra. }
  split; [exact Hwheel |].
  split; [rewrite handleMouseDown_view; exact Hr |].
  split; [unfold zoomInRange; rewrite handleMouseMove_view_scale; exact Hr |].
  split; [exact Hr |].
  split; [exact Hreset |].
  intros Hc prevView. apply (wheel_zoom_clamped rect e prevView Hc).
Qed.

Lemma zoom_range_preserved_witness :
  zoomInRange (view (setView (handleWheel {| left := 0; top := 0 |}
                      {| ctrlKey := true; wh_clientX := 0; wh_clientY := 0;
                         deltaX := 0; deltaY := -1000 |}) ready)).
Proof.
  assert (Hr : zoomInRange (view ready)).
  { unfold zoomInRange. cbn. exact_arith. lra. }
  exact (proj1 (@zoom_range_preserved {| left := 0; top := 0 |}
                  {| ctrlKey := true; wh_clientX := 0; wh_clientY := 0;
                     deltaX := 0; deltaY := -1000 |}
                  {| button := 0; clientX := 0; clientY := 0 |} ready Hr)).
Defined.

(** *** Placement and the hit test *)

(** [m3_multiply a b] applies [b] first, then [a]. *)
Lemma m3_multiply_apply (a b : m3 (N:=R)) (px py pz : R) :
  mat3_mul_vec3 (m3_multiply a b) px py pz
  = mat3_mul_vec3 a (fst (fst (mat3_mul_vec3 b px py pz)))
                    (snd (fst (mat3_mul_vec3 b px py pz)))
                    (snd (mat3_mul_vec3 b px py pz)).
Proof.
  destruct a, b. unfold mat3_mul_vec3, m3_multiply.
  cbn [e0 e1 e2 e3 e4 e5 e6 e7 e8 fst snd]. exact_arith.
  f_equal; [f_equal |]; ring.
Qed.

(** The model and the view transform of a layer, applied to a point
    with third coordinate 1. *)
Lemma modelMatrix_apply (l : ImageLayer (N:=R)) (px py : R) :
  mat3_mul_vec3 (modelMatrix l) px py 1
  = (cos (rotation l) * (width l * scale l * px) + sin (rotation l) * (height l * scale l * py) + x l,
     - sin (rotation l) * (width l * scale l * px) + cos (rotation l) * (height l * scale l * py) + y l,
     1).
Proof.
  unfold modelMatrix. rewrite !m3_multiply_apply.
  unfold mat3_mul_vec3, m3_translation, m3_rotation, m3_scale.
  cbn [e0 e1 e2 e3 e4 e5 e6 e7 e8 fst snd]. exact_arith.
  f_equal; [f_equal |]; ring.
Qed.

Lemma viewMatrix_apply (v : View (N:=R)) (px py : R) :
  mat3_mul_vec3 (viewMatrix v) px py 1
  = (view_scale v * px + view_x v, view_scale v * py + view_y v, 1).
Proof.
  unfold viewMatrix. rewrite !m3_multiply_apply.
  unfold mat3_mul_vec3, m3_translation, m3_scale.
  cbn [e0 e1 e2 e3 e4 e5 e6 e7 e8 fst snd]. exact_arith.
  f_equal; [f_equal |]; ring.
Qed.

(** Where [render] puts the vertex [p]: scaled, turned by the matrix of
    [m3_rotation], moved to the layer's position, then through the view. *)
Lemma placeOnCanvas_formula (v : View (N:=R)) (l : ImageLayer (N:=R)) (p : vec2 (N:=R)) :
  let c := cos (rotation l) in
  let s := sin (rotation l) in
  let X := width l * scale l * vx p in
  let Y := height l * scale l * vy p in
  placeOnCanvas v l p
  = Vec2 (view_scale v * (c * X + s * Y + x l) + view_x v)
         (view_scale v * (- s * X + c * Y + y l) + view_y v).
Proof.
  intros c s X Y.
  unfold placeOnCanvas, VS_SOURCE. change (of_Z 1) with 1.
  rewrite m3_multiply_apply, modelMatrix_apply. cbn [fst snd].
  rewrite viewMatrix_apply. reflexivity.
Qed.

(** X5: the clip-space position [render] hands to the GPU is the
    projection of the canvas point at which the layer's matrices place
    the vertex. *)
Lemma finalMatrix_projects_placement (bw bh : R) (v : View (N:=R)) (l : ImageLayer (N:=R))
    (p : vec2 (N:=R)) :
  VS_SOURCE (finalMatrix bw bh v l) p
  = VS_SOURCE (m3_projection bw bh) (placeOnCanvas v l p).
Proof.
  rewrite placeOnCanvas_formula.
  unfold finalMatrix, VS_SOURCE. change (of_Z 1) with 1.
  rewrite !m3_multiply_apply, modelMatrix_apply. cbn [fst snd].
  rewrite viewMatrix_apply. cbn [fst snd vx vy]. reflexivity.
Qed.

(** The hit test turns the world point by the matrix of [m3_rotation]
    once more instead of turning it back: on a placed vertex it yields
    the vertex turned by twice the layer's rotation. *)
Lemma localPoint_of_placement (v : View (N:=R)) (l : ImageLayer (N:=R)) (p : vec2 (N:=R)) :
  view_scale v <> 0 ->
  let c := cos (rotation l) in
  let s := sin (rotation l) in
  let X := width l * scale l * vx p in
  let Y := height l * scale l * vy p in
  let q := placeOnCanvas v l p in
  let '(wx, wy) := worldPoint v (vx q) (vy q) in
  localPoint wx wy l
  = (((c * c - s * s) * X + 2 * c * s * Y) / (width l * scale l),
     ((c * c - s * s) * Y - 2 * c * s * X) / (height l * scale l)).
Proof.
  intros Hv c s X Y q. subst q. rewrite placeOnCanvas_formula.
  unfold worldPoint, localPoint. cbn [vx vy]. exact_arith.
  rewrite cos_neg, sin_neg. fold c s X Y.
  f_equal; apply Rdiv_eq_num; field; exact Hv.
Qed.

(** X6: for a layer that is not turned ([sin] of its rotation is 0) the
    hit test does undo the placement. *)
Lemma hit_inverse_of_placement_unrotated (v : View (N:=R)) (l : ImageLayer (N:=R))
    (p : vec2 (N:=R)) :
  view_scale v <> 0 ->
  width l * scale l <> 0 -> height l * scale l <> 0 ->
  sin (rotation l) = 0 ->
  Rabs (vx p) <= 1 / 2 -> Rabs (vy p) <= 1 / 2 ->
  let q := placeOnCanvas v l p in
  let '(wx, wy) := worldPoint v (vx q) (vy q) in
  localPoint wx wy l = (vx p, vy p) /\ hits wx wy l = true.
Proof.
  intros Hv Hw Hh Hs Hx Hy q.
  pose proof (@localPoint_of_placement v l p Hv) as E. cbv zeta in E. fold q in E.
  destruct (worldPoint v (vx q) (vy q)) as [wx wy].
  assert (Hc : cos (rotation l) * cos (rotation l) = 1).
  { pose proof (sin2_cos2 (rotation l)) as T. unfold Rsqr in T. rewrite Hs in T. lra. }
  assert (E' : localPoint wx wy l = (vx p, vy p)).
  { rewrite E, Hs, Hc.
    assert (Hw1 : width l <> 0) by (intros Z; apply Hw; rewrite Z; ring).
    assert (Hh1 : height l <> 0) by (intros Z; apply Hh; rewrite Z; ring).
    assert (Hs1 : scale l <> 0) by (intros Z; apply Hw; rewrite Z; ring).
    f_equal; field; auto. }
  split; [exact E' |].
  unfold hits. rewrite E'. exact_arith.
  rewrite !Rleb_true by lra. reflexivity.
Qed.

(** C6 at a failing input: a 200 x 100 layer at scale 1 turned by a
    quarter of [PI], under the identity view.  [render] puts the
    mid-point [(1/2, 0)] of its right edge at the canvas point
    [(100 / sqrt 2, - 100 / sqrt 2)]; the hit test takes that point to
    the local point [(0, -1)], outside the unit quad, and reports no
    layer. *)
Theorem hit_test_misses_rotated_layer :
  placeOnCanvas resetView rotatedLayer (Vec2 (1 / 2) 0)
  = Vec2 (100 / sqrt 2) (- (100 / sqrt 2))
  /\ localPoint (100 / sqrt 2) (- (100 / sqrt 2)) rotatedLayer = (0, -1)
  /\ hits (100 / sqrt 2) (- (100 / sqrt 2)) rotatedLayer = false
  /\ hitTest resetView [rotatedLayer] (100 / sqrt 2) (- (100 / sqrt 2)) = None.
Proof.
  pose proof sqrt2_neq_0 as H2.
  pose proof (sqrt_sqrt 2 ltac:(lra)) as Hsq.
  assert (Hinv : / sqrt 2 * / sqrt 2 = 1 / 2).
  { rewrite <- Rinv_mult, Hsq. lra. }
  assert (P : placeOnCanvas resetView rotatedLayer (Vec2 (1 / 2) 0)
              = Vec2 (100 / sqrt 2) (- (100 / sqrt 2))).
  { rewrite placeOnCanvas_formula.
    cbn [rotatedLayer rotation width height scale x y vx vy resetView view_x view_y view_scale].
    exact_arith. rewrite cos_PI4, sin_PI4. f_equal; field; exact H2. }
  assert (L : localPoint (100 / sqrt 2) (- (100 / sqrt 2)) rotatedLayer = (0, -1)).
  { unfold localPoint.
    cbn [rotatedLayer rotation width height scale x y].
    exact_arith. rewrite cos_neg, sin_neg, cos_PI4, sin_PI4.
    f_equal.
    - field_simplify; [| exact H2]. lra.
    - unfold Rdiv.
      replace ((100 * / sqrt 2 - 0) * - (1 * / sqrt 2) + (- (100 * / sqrt 2) - 0) * (1 * / sqrt 2))
        with (- 200 * (/ sqrt 2 * / sqrt 2)) by ring.
      rewrite Hinv. field. }
  assert (Hh : hits (100 / sqrt 2) (- (100 / sqrt 2)) rotatedLayer = false).
  { unfold hits. rewrite L. exact_arith.
    rewrite (Rleb_false (a := Rabs (-1))).
    - apply andb_false_r.
    - unfold Rabs. destruct (Rcase_abs (-1)); lra. }
  repeat split; [exact P | exact L | exact Hh |].
  unfold hitTest. rewrite Array_sort_singleton.
  cbn [resetView view_x view_y view_scale hitLoop]. exact_arith.
  replace ((100 / sqrt 2 - 0) / 1) with (100 / sqrt 2) by (field; exact H2).
  replace ((- (100 / sqrt 2) - 0) / 1) with (- (100 / sqrt 2)) by (field; exact H2).
  rewrite Hh. reflexivity.
Qed.

End Ideal.

(** ** Theorems on the layer list, in any arithmetic *)

Section LayerList.

Context {N : Type} `{Arith N}.

Lemma updateLayer_layers (i : string) (updates : PartialLayer (N:=N)) (st : EditorState (N:=N)) :
  layers (updateLayer i updates st)
  = map (fun l => if String.eqb (id l) i then spread l updates else l) (layers st).
Proof. reflexivity. Qed.

Lemma spread_no_updates (l : ImageLayer (N:=N)) : spread l no_updates = l.
Proof. destruct l. reflexivity. Qed.

Lemma updateLayer_length (i : string) (updates : PartialLayer (N:=N)) (st : EditorState (N:=N)) :
  List.length (layers (updateLayer i updates st)) = List.length (layers st).
Proof. rewrite updateLayer_layers. apply length_map. Qed.

(** C3, amended: [updateLayer] replaces each layer with the given id, in
    place, by the layer with the supplied fields overwritten and the
    others kept, and leaves every other layer as it is; a supplied scale
    or opacity is stored as supplied, whatever its value. *)
Theorem updateLayer_merges_unvalidated (i : string) (updates : PartialLayer (N:=N))
    (st : EditorState (N:=N)) (n : nat) (l : ImageLayer (N:=N)) :
  nth_error (layers st) n = Some l ->
  exists l',
    nth_error (layers (updateLayer i updates st)) n = Some l'
    /\ (id l <> i -> l' = l)
    /\ (id l = i ->
        l' = spread l updates
        /\ scale l' = supplied (p_scale updates) (scale l)
        /\ opacity l' = supplied (p_opacity updates) (opacity l)
        /\ (forall v, p_scale updates = Some v -> scale l' = v)
        /\ (forall v, p_opacity updates = Some v -> opacity l' = v)
        /\ (updates = no_updates -> l' = l)).
Proof.
  intros Hn. rewrite updateLayer_layers.
  exists (if String.eqb (id l) i then spread l updates else l).
  split; [| split].
  - rewrite nth_error_map, Hn. reflexivity.
  - intros Hne. apply String.eqb_neq in Hne. rewrite Hne. reflexivity.
  - intros He. apply String.eqb_eq in He. rewrite He.
    repeat split.
    + intros v Hv. cbn. rewrite Hv. reflexivity.
    + intros v Hv. cbn. rewrite Hv. reflexivity.
    + intros ->. apply spread_no_updates.
Qed.

Lemma deleteLayer_layers (i : string) (st : EditorState (N:=N)) :
  layers (deleteLayer i st) = filter (fun l => negb (String.eqb (id l) i)) (layers st).
Proof.
  unfold deleteLayer. destruct (activeLayerId st) as [a |]; [| reflexivity].
  destruct (String.eqb a i); reflexivity.
Qed.

Lemma deleteLayer_glRef (i : string) (st : EditorState (N:=N)) :
  glRef (deleteLayer i st) = glRef st.
Proof.
  unfold deleteLayer. destruct (activeLayerId st) as [a |]; [| reflexivity].
  destruct (String.eqb a i); reflexivity.
Qed.

Lemma deleteLayer_activeLayerId (i : string) (st : EditorState (N:=N)) :
  activeLayerId (deleteLayer i st)
  = match activeLayerId st with
    | Some a => if String.eqb a i then None else Some a
    | None => None
    end.
Proof.
  unfold deleteLayer. destruct (activeLayerId st) as [a |] eqn:Ea.
  - destruct (String.eqb a i); [reflexivity | exact Ea].
  - exact Ea.
Qed.

Lemma deleteLayer_absent (i : string) (st : EditorState (N:=N)) :
  (forall l, In l (layers st) -> id l <> i) -> layers (deleteLayer i st) = layers st.
Proof.
  intros Habs. rewrite deleteLayer_layers.
  apply forallb_filter_id. apply forallb_forall. intros l Hl.
  apply negb_true_iff, String.eqb_neq, Habs, Hl.
Qed.

(** C9, amended: [deleteLayer] removes exactly the records with the
    given id and keeps the others, in their order; it leaves the textures of the WebGL
    context as they are (none is released); a selection equal to the id
    becomes none and any other selection stays; when no layer has the id
    the list is unchanged, and so is the whole state when the selection
    names a layer of the list. *)
Theorem deleteLayer_effect (i : string) (st : EditorState (N:=N)) :
  layers (deleteLayer i st) = filter (fun l => negb (String.eqb (id l) i)) (layers st)
  /\ (forall l, In l (layers (deleteLayer i st)) <-> In l (layers st) /\ id l <> i)
  /\ glRef (deleteLayer i st) = glRef st
  /\ (activeLayerId st = Some i -> activeLayerId (deleteLayer i st) = None)
  /\ (activeLayerId st <> Some i -> activeLayerId (deleteLayer i st) = activeLayerId st)
  /\ ((forall l, In l (layers st) -> id l <> i) ->
      layers (deleteLayer i st) = layers st
      /\ (selectionPresent st -> deleteLayer i st = st)).
Proof.
  split; [apply deleteLayer_layers |].
  split; [| split; [| split; [| split]]].
  - intros l. rewrite deleteLayer_layers, filter_In, negb_true_iff, String.eqb_neq.
    reflexivity.
  - apply deleteLayer_glRef.
  - intros Ha. rewrite deleteLayer_activeLayerId, Ha, String.eqb_refl. reflexivity.
  - intros Ha. rewrite deleteLayer_activeLayerId.
    destruct (activeLayerId st) as [a |]; [| reflexivity].
    destruct (String.eqb_spec a i) as [-> | Hne]; [contradiction Ha; reflexivity | reflexivity].
  - intros Habs. split; [apply deleteLayer_absent, Habs |].
    intros Hsel.
    assert (Hf : filter (fun l => negb (String.eqb (id l) i)) (layers st) = layers st).
    { rewrite <- deleteLayer_layers. apply deleteLayer_absent, Habs. }
    unfold deleteLayer.
    destruct (activeLayerId st) as [a |] eqn:Ea.
    + destruct (String.eqb_spec a i) as [-> | Hne].
      * destruct (Hsel i Ea) as [l [Hin Hid]]. contradiction (Habs l Hin Hid).
      * unfold setLayers. cbv beta. rewrite Hf. destruct st; reflexivity.
    + unfold setLayers. cbv beta. rewrite Hf. destruct st; reflexivity.
Qed.

(** When the z-order keys in use do not exceed the number of layers (as
    after uploads and reorderings, with no deletion since), a new layer
    gets a key above them all. *)
Lemma addLayer_above_when_dense (fileName newId : string) (img : HTMLImageElement (N:=N))
    (st : EditorState (N:=N)) :
  Forall (fun l => (zIndex l <= Z.of_nat (List.length (layers st)))%Z) (layers st) ->
  exists newLayer,
    layers (addLayer st fileName newId img st) = layers st ++ [newLayer]
    /\ Forall (fun l => (zIndex l < zIndex newLayer)%Z) (layers st).
Proof.
  intros Hd. unfold addLayer, createTexture.
  destruct (glRef st) as [live |]; cbn; eexists; (split; [reflexivity |]); cbn;
    (eapply Forall_impl; [| exact Hd]); cbn; intros l Hl; lia.
Qed.

End LayerList.

(** *** The layer list at concrete states *)

Section Scenarios.

Local Open Scope string_scope.

(** C2 at a failing input: after three uploads and the deletion of the
    two lowest layers, the layer left has z-order key 3; the next upload
    gets the key 2 (the number of layers plus one), below the maximum,
    and [render] draws it first, under the layer that was there. *)
Theorem new_layer_below_existing :
  map (fun l => (id l, zIndex l)) (layers afterUploadsAndDeletes) = [("c", 3%Z)]
  /\ map (fun l => (id l, zIndex l)) (layers (upload "d.png" "d" afterUploadsAndDeletes))
     = [("c", 3%Z); ("d", 2%Z)]
  /\ map dc_texture (render 800%R 600%R (upload "d.png" "d" afterUploadsAndDeletes))
     = [4%nat; 3%nat].
Proof. repeat split; reflexivity. Qed.

(** Two uploads started from the same render get the same key. *)
Lemma simultaneous_uploads_tie :
  map (fun l => (id l, zIndex l))
      (layers (addLayer ready "b.png" "b" photo (addLayer ready "a.png" "a" photo ready)))
  = [("a", 1%Z); ("b", 1%Z)].
Proof. reflexivity. Qed.

(** C3, refuted as stated: [updateLayer] stores a scale of [-1] and an
    opacity of [2] as they are. *)
Lemma out_of_range_values_are_stored :
  map (fun l => (scale l, opacity l))
      (layers (updateLayer "a" outOfRange (upload "a.png" "a" ready)))
  = [((-1)%R, 2%R)]
  /\ ~ (0 < -1)%R /\ ~ (2 <= 1)%R.
Proof. split; [reflexivity | lra]. Qed.

Lemma updateLayer_merges_witness :
  exists l',
    nth_error (layers (updateLayer "a" outOfRange (upload "a.png" "a" ready))) 0 = Some l'
    /\ scale l' = (-1)%R /\ opacity l' = 2%R.
Proof.
  destruct (@updateLayer_merges_unvalidated R "a" outOfRange (upload "a.png" "a" ready) 0
              {| id := "a"; name := "a.png"; image := photo; texture := Some 1%nat;
                 x := (800 / 2)%R; y := (600 / 2)%R; width := 200%R; height := 100%R;
                 scale := (5 / 10)%R; rotation := 0%R; distortion := 0%R;
                 opacity := (8 / 10)%R; zIndex := 1 |}
              eq_refl) as [l' [Hn [_ Hm]]].
  exists l'. split; [exact Hn |].
  destruct (Hm eq_refl) as [_ [_ [_ [Hs [Ho _]]]]].
  split; [apply Hs; reflexivity | apply Ho; reflexivity].
Defined.

(** C9, refuted as stated: the texture created for an uploaded layer is
    still a texture of the context after the layer is deleted. *)
Lemma deleted_texture_stays_allocated :
  map texture (layers (upload "a.png" "a" ready)) = [Some 1%nat]
  /\ glRef (upload "a.png" "a" ready) = Some [1%nat]
  /\ layers (deleteLayer "a" (upload "a.png" "a" ready)) = []
  /\ glRef (deleteLayer "a" (upload "a.png" "a" ready)) = Some [1%nat].
Proof. repeat split; reflexivity. Qed.

End Scenarios.

(** ** Theorems in binary64 *)

Lemma float_zero_spec (z : float) :
  PrimFloat.eqb z PrimFloat.zero = true -> exists s, Prim2SF z = S754_zero s.
Proof.
  rewrite FloatAxioms.eqb_spec. change (Prim2SF PrimFloat.zero) with (S754_zero false).
  destruct (Prim2SF z) as [s | s | | s m e]; cbn; intros E.
  - exists s. reflexivity.
  - destruct s; discriminate E.
  - discriminate E.
  - destruct s; discriminate E.
Qed.

(** Dividing by a zero, of either sign, gives an infinity or [NaN]. *)
Lemma div_by_zero_nonFinite (a z : float) :
  PrimFloat.eqb z PrimFloat.zero = true -> nonFinite (PrimFloat.div a z).
Proof.
  intros Hz. destruct (float_zero_spec Hz) as [s Hs].
  unfold nonFinite. rewrite FloatAxioms.div_spec, Hs. unfold SF64div, SFdiv.
  destruct (Prim2SF a) as [sa | sa | | sa m e].
  - left. reflexivity.
  - right. eexists. reflexivity.
  - left. reflexivity.
  - right. eexists. reflexivity.
Qed.

Lemma nonFinite_is_finite (f : float) : nonFinite f -> PrimFloat.is_finite f = false.
Proof.
  unfold PrimFloat.is_finite, PrimFloat.is_nan, PrimFloat.is_infinity.
  rewrite !FloatAxioms.eqb_spec, FloatAxioms.abs_spec.
  change (Prim2SF PrimFloat.infinity) with (S754_infinity false).
  intros [E | [s E]]; rewrite E.
  - reflexivity.
  - destruct s; reflexivity.
Qed.

(** [Math.abs(f) <= 0.5] is false for an infinity and for [NaN]. *)
Lemma nonFinite_abs_leb_half (f : float) :
  nonFinite f -> PrimFloat.leb (PrimFloat.abs f) 0.5%float = false.
Proof.
  rewrite FloatAxioms.leb_spec, FloatAxioms.abs_spec.
  intros [E | [s E]]; rewrite E; reflexivity.
Qed.

Section Binary64.

(** Any [Math.cos], [Math.sin] and [Math.exp]. *)
Variables cos sin exp : float -> float.

Local Hint Extern 0 (Arith float) => exact (binary64 cos sin exp) : typeclass_instances.

Lemma degenerate_local_nonFinite (wx wy : float) (layer : ImageLayer (N:=float)) :
  (PrimFloat.eqb (PrimFloat.mul (width layer) (scale layer)) PrimFloat.zero = true ->
   nonFinite (fst (localPoint wx wy layer)))
  /\ (PrimFloat.eqb (PrimFloat.mul (height layer) (scale layer)) PrimFloat.zero = true ->
      nonFinite (snd (localPoint wx wy layer))).
Proof.
  split; intros Hz; unfold localPoint; cbn [fst snd];
    apply div_by_zero_nonFinite; exact Hz.
Qed.

Lemma degenerate_not_hit (wx wy : float) (layer : ImageLayer (N:=float)) :
  degenerate layer -> hits wx wy layer = false.
Proof.
  intros Hz. destruct (degenerate_local_nonFinite wx wy layer) as [Hx Hy].
  unfold hits. destruct (localPoint wx wy layer) as [localX localY]. cbn [fst snd] in Hx, Hy.
  change (dec 5 10) with 0.5%float.
  change (@leb float (binary64 cos sin exp)) with PrimFloat.leb.
  change (@Math_abs float (binary64 cos sin exp)) with PrimFloat.abs.
  destruct Hz as [Hw | Hh].
  - rewrite (nonFinite_abs_leb_half (Hx Hw)). reflexivity.
  - rewrite (nonFinite_abs_leb_half (Hy Hh)). apply andb_false_r.
Qed.

(** C10: for a layer one of whose extents [width * scale],
    [height * scale] is zero, the local coordinate divided by that
    extent is not finite, the bounds check is false, and the loop of
    [handleMouseDown] goes on to the layers after it. *)
Theorem degenerate_layer_never_hit (wx wy : float) (layer : ImageLayer (N:=float))
    (rest : list (ImageLayer (N:=float))) :
  degenerate layer ->
  (PrimFloat.eqb (PrimFloat.mul (width layer) (scale layer)) PrimFloat.zero = true ->
   PrimFloat.is_finite (fst (localPoint wx wy layer)) = false)
  /\ (PrimFloat.eqb (PrimFloat.mul (height layer) (scale layer)) PrimFloat.zero = true ->
      PrimFloat.is_finite (snd (localPoint wx wy layer)) = false)
  /\ hits wx wy layer = false
  /\ hitLoop wx wy (layer :: rest) = hitLoop wx wy rest.
Proof.
  intros Hz. destruct (degenerate_local_nonFinite wx wy layer) as [Hx Hy].
  split; [intros Hw; apply nonFinite_is_finite, Hx, Hw |].
  split; [intros Hh; apply nonFinite_is_finite, Hy, Hh |].
  split; [apply degenerate_not_hit, Hz |].
  cbn [hitLoop]. rewrite (degenerate_not_hit wx wy Hz). reflexivity.
Qed.

Lemma hitLoop_degenerate (wx wy : float) (ls : list (ImageLayer (N:=float))) :
  Forall degenerate ls -> hitLoop wx wy ls = None.
Proof.
  intros Hd. induction Hd as [| l ls Hl Hls IH]; [reflexivity |].
  cbn [hitLoop]. rewrite (degenerate_not_hit wx wy Hl). exact IH.
Qed.

(** X30: when every layer is degenerate a press that is not a pan
    trigger falls through to "deselect and pan". *)
Lemma degenerate_layers_fall_through (rect : DOMRect (N:=float)) (e : MouseEvent (N:=float))
    (st : EditorState (N:=float)) :
  isSpacePressed st = false -> Z.eqb (button e) 1 = false ->
  Forall degenerate (layers st) ->
  handleMouseDown (Some rect) e st = startPanning e (setActiveLayerId None st).
Proof.
  intros Hsp Hb Hd. unfold handleMouseDown. rewrite Hsp, Hb. cbn [orb].
  unfold hitTest. rewrite hitLoop_degenerate; [reflexivity |].
  apply Array_sort_Forall. exact Hd.
Qed.

(** The corner of C1 in binary64: every value on the way is a binary
    fraction, so the result is the exact one. *)
Lemma corner_at_minus1_binary64 :
  fs_uv (-1)%float 1%float (Vec2 0%float 0%float) = Vec2 0.25%float 0.25%float
  /\ outside (fs_uv (-1)%float 1%float (Vec2 0%float 0%float)) = false.
Proof. split; vm_compute; reflexivity. Qed.

(** The [+] button of C4 in binary64. *)
Lemma zoom_in_button_binary64 :
  view_scale (zoomInButton {| view_x := 0%float; view_y := 0%float; view_scale := 10%float |})
  = 11%float.
Proof. vm_compute. reflexivity. Qed.

(** [fitToScreen] does not clamp: a single 10 x 10 layer on the 800 x 600
    canvas is fitted at zoom 50.  ([Math.cos(0)] is 1 and [Math.sin(0)]
    is 0.) *)
Lemma fitToScreen_not_clamped :
  cos 0%float = 1%float -> sin 0%float = 0%float ->
  view (fitToScreen PrimFloat.infinity PrimFloat.is_finite
          (setLayers (fun _ => [smallLayer]) initialState))
  = {| view_x := 400%float; view_y := 300%float; view_scale := 50%float |}.
Proof.
  intros cos_zero sin_zero.
  assert (G : forall b corner,
            growBounds smallLayer b corner
            = growBounds (H := binary64 (fun _ => 1%float) (fun _ => 0%float) exp)
                smallLayer b corner).
  { intros b corner. unfold growBounds.
    cbn [Math_cos Math_sin binary64 rotation smallLayer].
    rewrite cos_zero, sin_zero. reflexivity. }
  unfold fitToScreen, layerBounds, corners.
  cbn [layers setLayers fold_left]. rewrite !G.
  vm_compute. reflexivity.
Qed.

End Binary64.

(** A layer of width 0 is skipped and the layer under it is found. *)
Lemma degenerate_layer_never_hit_witness :
  hits (H := binary64 (fun _ => 1%float) (fun _ => 0%float) (fun _ => 1%float))
       5%float 5%float flatLayer = false
  /\ hitLoop (H := binary64 (fun _ => 1%float) (fun _ => 0%float) (fun _ => 1%float))
       5%float 5%float [flatLayer; smallLayer]
     = hitLoop (H := binary64 (fun _ => 1%float) (fun _ => 0%float) (fun _ => 1%float))
         5%float 5%float [smallLayer].
Proof.
  destruct (@degenerate_layer_never_hit
              (fun _ => 1%float) (fun _ => 0%float) (fun _ => 1%float)
              5%float 5%float flatLayer [smallLayer] (or_introl eq_refl))
    as (_ & _ & Hh & Hl).
  split; [exact Hh | exact Hl].
Defined.

(** C8, refuted as stated: in binary64 the image of [(width, height)] is
    not exactly [(1, -1)] for every size.  For the 49 x 49 buffer the
    entry [2 / 49] of the matrix is rounded, and the product gives
    [1 - 2^-52] (0.99999999999999978) in place of 1 in both coordinates;
    [(0, 0)] still goes to [(-1, 1)].  The projection calls none of
    [Math.cos], [Math.sin] and [Math.exp], which are set to constants
    here. *)
Lemma projection_corner_inexact_binary64 :
  VS_SOURCE (H := binary64 (fun _ => 1%float) (fun _ => 0%float) (fun _ => 1%float))
    (m3_projection (H := binary64 (fun _ => 1%float) (fun _ => 0%float) (fun _ => 1%float))
       49%float 49%float)
    (Vec2 49%float 49%float)
  = Vec2 0x1.ffffffffffffep-1%float (-0x1.ffffffffffffep-1)%float
  /\ PrimFloat.eqb 0x1.ffffffffffffep-1%float 1%float = false
  /\ VS_SOURCE (H := binary64 (fun _ => 1%float) (fun _ => 0%float) (fun _ => 1%float))
       (m3_projection (H := binary64 (fun _ => 1%float) (fun _ => 0%float) (fun _ => 1%float))
          49%float 49%float)
       (Vec2 0%float 0%float)
     = Vec2 (-1)%float 1%float.
Proof. vm_compute. repeat split. Qed.


(** ** Facts on the sort *)

Section SortOrder.

Lemma sort_insert_perm (A : Type) (cmp : A -> A -> bool) (a : A) (l : list A) :
  Permutation (sort_insert cmp a l) (a :: l).
Proof.
  induction l as [| b l IH]; cbn.
  - apply Permutation_refl.
  - destruct (cmp a b).
    + apply Permutation_refl.
    + apply perm_trans with (b :: a :: l).
      * apply perm_skip. exact IH.
      * apply perm_swap.
Qed.

Lemma Array_sort_perm (A : Type) (cmp : A -> A -> bool) (l : list A) :
  Permutation (Array_sort cmp l) l.
Proof.
  induction l as [| a l IH]; cbn.
  - apply perm_nil.
  - apply perm_trans with (a :: Array_sort cmp l).
    + apply sort_insert_perm.
    + apply perm_skip. exact IH.
Qed.

Lemma Array_sort_In (A : Type) (cmp : A -> A -> bool) (l : list A) (a : A) :
  In a (Array_sort cmp l) <-> In a l.
Proof.
  split; apply Permutation_in; [| apply Permutation_sym]; apply Array_sort_perm.
Qed.


(** Sorting by a key that is compared with [<=]. *)
Variable A : Type.
Variable key : A -> Z.
Variable cmp : A -> A -> bool.
Hypothesis cmp_key : forall a b, cmp a b = true <-> (key a <= key b)%Z.

Lemma sort_insert_sorted (a : A) (l : list A) :
  StronglySorted (fun u v => (key u <= key v)%Z) l ->
  StronglySorted (fun u v => (key u <= key v)%Z) (sort_insert cmp a l).
Proof.
  intros Hs. induction Hs as [| b l Hs IH Hb]; cbn.
  - constructor; constructor.
  - destruct (cmp a b) eqn:Hc.
    + apply cmp_key in Hc. constructor.
      * constructor; assumption.
      * constructor; [exact Hc |].
        eapply Forall_impl; [| exact Hb]. cbn. intros c Hbc. lia.
    + assert (Hba : (key b <= key a)%Z).
      { destruct (Z.le_gt_cases (key a) (key b)) as [Hle | Hgt]; [| lia].
        apply cmp_key in Hle. congruence. }
      constructor; [exact IH |].
      apply (Permutation_Forall (Permutation_sym (sort_insert_perm cmp a l))).
      constructor; assumption.
Qed.

Lemma Array_sort_sorted (l : list A) :
  StronglySorted (fun u v => (key u <= key v)%Z) (Array_sort cmp l).
Proof.
  induction l as [| a l IH]; cbn.
  - constructor.
  - apply sort_insert_sorted. exact IH.
Qed.

(** The sort is stable: elements with the same key keep their order. *)
Lemma sort_insert_stable (k : Z) (a : A) (l : list A) :
  filter (fun u => Z.eqb (key u) k) (sort_insert cmp a l)
  = filter (fun u => Z.eqb (key u) k) (a :: l).
Proof.
  induction l as [| b l IH]; [reflexivity |].
  cbn [sort_insert]. destruct (cmp a b) eqn:Hc; [reflexivity |].
  assert (Hba : (key b < key a)%Z).
  { destruct (Z.lt_ge_cases (key b) (key a)) as [Hlt | Hge]; [exact Hlt |].
    assert (Hle : (key a <= key b)%Z) by lia. apply cmp_key in Hle. congruence. }
  cbn [filter] in *. rewrite IH.
  destruct (Z.eqb_spec (key a) k) as [Ea | Na]; destruct (Z.eqb_spec (key b) k) as [Eb | Nb];
    try reflexivity; lia.
Qed.

Lemma Array_sort_stable (k : Z) (l : list A) :
  filter (fun u => Z.eqb (key u) k) (Array_sort cmp l)
  = filter (fun u => Z.eqb (key u) k) l.
Proof.
  induction l as [| a l IH]; [reflexivity |].
  cbn [Array_sort fold_right]. fold (Array_sort cmp l).
  rewrite sort_insert_stable. cbn [filter]. rewrite IH. reflexivity.
Qed.

End SortOrder.

Lemma byZ_ascending_key (N : Type) (a b : ImageLayer (N:=N)) :
  byZ_ascending a b = true <-> (zIndex a <= zIndex b)%Z.
Proof. unfold byZ_ascending. rewrite Z.leb_le. lia. Qed.

Lemma byZ_descending_key (N : Type) (a b : ImageLayer (N:=N)) :
  byZ_descending a b = true <-> (- zIndex a <= - zIndex b)%Z.
Proof. unfold byZ_descending. rewrite Z.leb_le. lia. Qed.


(** ** More theorems on the layer list and the pointer, in any arithmetic *)

Section DrawOrder.

Context {N : Type} `{Arith N}.

Lemma filter_perm (A : Type) (f : A -> bool) (l l' : list A) :
  Permutation l l' -> Permutation (filter f l) (filter f l').
Proof.
  intros Hp. induction Hp as [| a l l' Hp IH | a b l | l l' l'' Hp1 IH1 Hp2 IH2]; cbn.
  - apply perm_nil.
  - destruct (f a); [apply perm_skip |]; exact IH.
  - destruct (f a); destruct (f b); try apply Permutation_refl. apply perm_swap.
  - eapply perm_trans; eassumption.
Qed.

Lemma filter_sorted (A : Type) (R : A -> A -> Prop) (f : A -> bool) (l : list A) :
  StronglySorted R l -> StronglySorted R (filter f l).
Proof.
  intros Hs. induction Hs as [| a l Hs IH Ha]; cbn; [constructor |].
  destruct (f a); [| exact IH].
  constructor; [exact IH |].
  apply Forall_forall. intros b Hb. apply filter_In in Hb.
  rewrite Forall_forall in Ha. apply Ha, Hb.
Qed.

Lemma filter_comm (A : Type) (f g : A -> bool) (l : list A) :
  filter f (filter g l) = filter g (filter f l).
Proof.
  induction l as [| a l IH]; [reflexivity |]. cbn.
  destruct (g a) eqn:Hg; destruct (f a) eqn:Hf; cbn; rewrite ?Hg, ?Hf, IH; reflexivity.
Qed.

Lemma render_of_drawnLayers (B : Type) (bw bh : N) (st : EditorState (N:=N))
    (g : DrawCall (N:=N) -> B) (h : ImageLayer (N:=N) -> B) :
  glRef st <> None -> programRef st <> None ->
  (forall l t, texture l = Some t ->
     g {| dc_texture := t; dc_matrix := finalMatrix bw bh (view st) l;
          dc_distortion := distortion l; dc_opacity := opacity l |} = h l) ->
  map g (render bw bh st) = map h (drawnLayers st).
Proof.
  intros Hg Hp Hgh. unfold render, drawnLayers.
  destruct (glRef st) as [live |]; [| congruence].
  destruct (programRef st) as [program |]; [| congruence]. cbv zeta.
  induction (Array_sort byZ_ascending (layers st)) as [| l ls IH]; [reflexivity |].
  cbn [flat_map filter]. unfold hasTexture at 1.
  destruct (texture l) as [t |] eqn:Et; cbn [app map]; rewrite IH; [| reflexivity].
  f_equal. apply Hgh, Et.
Qed.

Lemma render_without_program (bw bh : N) (st : EditorState (N:=N)) :
  glRef st = None \/ programRef st = None -> render bw bh st = [].
Proof.
  unfold render. intros [E | E]; rewrite E; [reflexivity |].
  destruct (glRef st); reflexivity.
Qed.

(** [programRef] is set only by an initialisation all of whose calls
    succeed, and then [glRef] is set too. *)
Lemma initWebGL_program (answers : WebGLAnswers) (st : EditorState (N:=N)) :
  programRef st = None ->
  programRef (initWebGL answers st) <> None ->
  glRef (initWebGL answers st) <> None
  /\ canvasMounted answers = true /\ contextCreated answers = true
  /\ vertexShaderCompiled answers = true /\ fragmentShaderCompiled answers = true
  /\ programCreated answers = true /\ programLinked answers = true.
Proof.
  intros E. unfold initWebGL.
  destruct (canvasMounted answers), (contextCreated answers), (vertexShaderCompiled answers),
    (fragmentShaderCompiled answers), (programCreated answers), (programLinked answers);
    cbn; intros Hp; try (exfalso; apply Hp; exact E);
    repeat split; discriminate.
Qed.

(** X7: with a context and a linked program, [render] issues one draw
    call for each layer that has a texture, carrying that layer's
    texture, matrix, distortion and opacity; the calls come by
    non-decreasing [zIndex], and layers with equal [zIndex] are drawn in
    the order of the layer list.  Without a context or without a program
    (a shader that did not compile, a program that did not link) it
    issues no draw call; and from a state without a program it issues
    one after the initialisation only if every call of the
    initialisation succeeded. *)
Theorem render_draws_in_z_order (bw bh : N) (st : EditorState (N:=N)) :
  glRef st <> None -> programRef st <> None ->
  Permutation (drawnLayers st) (filter hasTexture (layers st))
  /\ StronglySorted (fun a b => (zIndex a <= zIndex b)%Z) (drawnLayers st)
  /\ (forall k, filter (fun l => Z.eqb (zIndex l) k) (drawnLayers st)
                = filter (fun l => Z.eqb (zIndex l) k) (filter hasTexture (layers st)))
  /\ map (fun c => Some (dc_texture c)) (render bw bh st) = map (fun l => texture l) (drawnLayers st)
  /\ map (fun c => dc_matrix c) (render bw bh st)
     = map (fun l => finalMatrix bw bh (view st) l) (drawnLayers st)
  /\ map (fun c => dc_distortion c) (render bw bh st) = map (fun l => distortion l) (drawnLayers st)
  /\ map (fun c => dc_opacity c) (render bw bh st) = map (fun l => opacity l) (drawnLayers st)
  /\ (forall s : EditorState (N:=N),
        glRef s = None \/ programRef s = None -> render bw bh s = [])
  /\ (forall answers (s : EditorState (N:=N)),
        programRef s = None -> render bw bh (initWebGL answers s) <> [] ->
        canvasMounted answers = true /\ contextCreated answers = true
        /\ vertexShaderCompiled answers = true /\ fragmentShaderCompiled answers = true
        /\ programCreated answers = true /\ programLinked answers = true).
Proof.
  intros Hg Hp.
  split; [| split; [| split]].
  - unfold drawnLayers. apply filter_perm, Array_sort_perm.
  - unfold drawnLayers. apply filter_sorted.
    apply (Array_sort_sorted (fun l => zIndex l) byZ_ascending (@byZ_ascending_key N)).
  - intros k. unfold drawnLayers. rewrite filter_comm.
    rewrite (Array_sort_stable (fun l => zIndex l) byZ_ascending (@byZ_ascending_key N)).
    apply filter_comm.
  - split; [| split; [| split; [| split; [| split]]]];
      try (apply render_of_drawnLayers; [exact Hg | exact Hp |]; intros l t Et; cbn; congruence).
    + intros s Hs. apply render_without_program, Hs.
    + intros answers s Es Hr.
      destruct (programRef (initWebGL answers s)) as [program |] eqn:Ep.
      * apply (@initWebGL_program answers s).
        -- exact Es.
        -- rewrite Ep. discriminate.
      * exfalso. apply Hr. apply render_without_program. right. exact Ep.
Qed.

Lemma filter_split (A : Type) (f : A -> bool) (l b a : list A) (m : A) :
  filter f l = b ++ m :: a ->
  exists l1 l2, l = l1 ++ m :: l2 /\ filter f l1 = b /\ filter f l2 = a.
Proof.
  revert b. induction l as [| x l IH]; intros b E; cbn in E.
  - destruct b; discriminate E.
  - destruct (f x) eqn:Hx.
    + destruct b as [| y b]; cbn in E; injection E as -> E.
      * exists [], l. repeat split. exact E.
      * destruct (IH b E) as (l1 & l2 & -> & E1 & E2).
        exists (y :: l1), l2. cbn. rewrite Hx, E1. repeat split. exact E2.
    + destruct (IH b E) as (l1 & l2 & -> & E1 & E2).
      exists (x :: l1), l2. cbn. rewrite Hx. repeat split; assumption.
Qed.

(** What the loop of the hit test returns on any list. *)
Lemma hitLoop_first (wx wy : N) (ls : list (ImageLayer (N:=N))) :
  match hitLoop wx wy ls with
  | Some i =>
      exists before layer after,
        ls = before ++ layer :: after /\ id layer = i /\ hits wx wy layer = true
        /\ Forall (fun l => hits wx wy l = false) before
  | None => Forall (fun l => hits wx wy l = false) ls
  end.
Proof.
  induction ls as [| l ls IH]; cbn [hitLoop]; [constructor |].
  destruct (hits wx wy l) eqn:Hl.
  - exists [], l, ls. repeat split; [exact Hl | constructor].
  - destruct (hitLoop wx wy ls) as [i |].
    + destruct IH as (before & layer & after & E & Hi & Hh & Hb).
      exists (l :: before), layer, after. rewrite E. repeat split; try assumption.
      constructor; assumption.
    + constructor; assumption.
Qed.

Lemma sorted_after (A : Type) (R : A -> A -> Prop) (before after : list A) (a : A) :
  StronglySorted R (before ++ a :: after) -> Forall (R a) after.
Proof.
  induction before as [| b before IH]; cbn; intros Hs; inversion Hs; subst; auto.
Qed.

(** An id the hit test returns is the id of a layer of the list that
    the point hits. *)
Lemma hitTest_Some_hits (v : View (N:=N)) (ls : list (ImageLayer (N:=N))) (mx my : N)
    (i : string) :
  hitTest v ls mx my = Some i ->
  exists layer,
    In layer ls /\ id layer = i
    /\ hits (fst (worldPoint v mx my)) (snd (worldPoint v mx my)) layer = true.
Proof.
  unfold hitTest, worldPoint. cbn [fst snd]. intros E.
  pose proof (hitLoop_first (div (sub mx (view_x v)) (view_scale v))
                (div (sub my (view_y v)) (view_scale v))
                (Array_sort byZ_descending ls)) as Hf.
  rewrite E in Hf. destruct Hf as (before & layer & after & El & Hi & Hh & _).
  exists layer. split; [| split; [exact Hi | exact Hh]].
  apply (proj1 (Array_sort_In byZ_descending ls layer)).
  rewrite El. apply in_or_app. right. left. reflexivity.
Qed.

(** X8: the hit test returns the id of a layer of the list that passes
    its bounds check [hits] (local coordinates within a half of 0 after
    the handler's own inverse transform) and has the greatest [zIndex]
    among the layers that pass it; when several of them share that
    [zIndex] it is the one that comes first in the layer list.  It
    returns none exactly when no layer passes the check. *)
Theorem hitTest_first_of_greatest_key (v : View (N:=N)) (ls : list (ImageLayer (N:=N)))
    (mx my : N) :
  match hitTest v ls mx my with
  | Some i =>
      exists before layer after,
        ls = before ++ layer :: after /\ id layer = i
        /\ hits (fst (worldPoint v mx my)) (snd (worldPoint v mx my)) layer = true
        /\ (forall other, In other before ->
              hits (fst (worldPoint v mx my)) (snd (worldPoint v mx my)) other = true ->
              (zIndex other < zIndex layer)%Z)
        /\ (forall other, In other after ->
              hits (fst (worldPoint v mx my)) (snd (worldPoint v mx my)) other = true ->
              (zIndex other <= zIndex layer)%Z)
  | None =>
      forall layer, In layer ls ->
        hits (fst (worldPoint v mx my)) (snd (worldPoint v mx my)) layer = false
  end.
Proof.
  unfold hitTest, worldPoint. cbn [fst snd].
  set (wx := div (sub mx (view_x v)) (view_scale v)).
  set (wy := div (sub my (view_y v)) (view_scale v)).
  pose proof (hitLoop_first wx wy (Array_sort byZ_descending ls)) as Hf.
  pose proof (Array_sort_sorted (fun l => (- zIndex l)%Z) byZ_descending
                (@byZ_descending_key N) ls) as Hs.
  destruct (hitLoop wx wy (Array_sort byZ_descending ls)) as [i |].
  - destruct Hf as (before & layer & after & E & Hi & Hh & Hb).
    assert (Hmax : forall other, In other ls -> hits wx wy other = true ->
                                 (zIndex other <= zIndex layer)%Z).
    { intros other Hin Ho.
      apply (Array_sort_In byZ_descending) in Hin. rewrite E in Hin, Hs.
      apply in_app_or in Hin. destruct Hin as [Hin | [<- | Hin]].
      * rewrite Forall_forall in Hb. rewrite (Hb other Hin) in Ho. discriminate Ho.
      * lia.
      * apply sorted_after in Hs. rewrite Forall_forall in Hs. specialize (Hs other Hin).
        cbn in Hs. lia. }
    pose proof (Array_sort_stable (fun l => (- zIndex l)%Z) byZ_descending
                  (@byZ_descending_key N) (- zIndex layer) ls) as St.
    rewrite E, filter_app in St. cbn [filter] in St. rewrite Z.eqb_refl in St.
    symmetry in St. apply filter_split in St.
    destruct St as (l1 & l2 & El & E1 & E2).
    exists l1, layer, l2. split; [exact El |]. split; [exact Hi |]. split; [exact Hh |].
    split.
    + intros other Hin Ho.
      assert (Hle : (zIndex other <= zIndex layer)%Z).
      { apply Hmax; [| exact Ho]. rewrite El. apply in_or_app. left. exact Hin. }
      destruct (Z.eq_dec (zIndex other) (zIndex layer)) as [Ez | Nz]; [| lia].
      exfalso.
      assert (Hf1 : In other (filter (fun u => Z.eqb (- zIndex u) (- zIndex layer)) l1)).
      { apply filter_In. split; [exact Hin |]. apply Z.eqb_eq. lia. }
      rewrite E1 in Hf1. apply filter_In in Hf1. destruct Hf1 as [Hin' _].
      rewrite Forall_forall in Hb. rewrite (Hb other Hin') in Ho. discriminate Ho.
    + intros other Hin Ho. apply Hmax; [| exact Ho].
      rewrite El. apply in_or_app. right. right. exact Hin.
  - intros layer Hin. apply (Array_sort_In byZ_descending) in Hin.
    rewrite Forall_forall in Hf. apply Hf, Hin.
Qed.

End DrawOrder.


Section PointerAndList.

Context {N : Type} `{Arith N}.

Lemma handleMouseDown_keeps (rect : option (DOMRect (N:=N))) (e : MouseEvent (N:=N))
    (st : EditorState (N:=N)) :
  layers (handleMouseDown rect e st) = layers st
  /\ view (handleMouseDown rect e st) = view st
  /\ glRef (handleMouseDown rect e st) = glRef st
  /\ canvasSize (handleMouseDown rect e st) = canvasSize st.
Proof.
  unfold handleMouseDown. destruct rect as [r |]; [| repeat split].
  destruct (isSpacePressed st || Z.eqb (button e) 1); [repeat split |].
  destruct (hitTest _ _ _ _) as [i |]; [| repeat split].
  destruct (String.eqb i EmptyString); [repeat split |].
  destruct (findLayer i (layers st)); repeat split.
Qed.

(** X9: from a state that is neither dragging nor panning, a press on
    the canvas starts exactly one of the two, records the pointer as the
    anchor and changes neither the layers nor the view; a press that
    starts dragging selects a layer of the list that passes the bounds
    check [hits] of the hit test at the pointer; releasing the button
    ends both; without a canvas rectangle the press does nothing. *)
Theorem press_starts_drag_or_pan (rect : DOMRect (N:=N)) (e : MouseEvent (N:=N))
    (st : EditorState (N:=N)) :
  idle st ->
  (isDragging (handleMouseDown (Some rect) e st) = true
     /\ isPanning (handleMouseDown (Some rect) e st) = false
   \/ isDragging (handleMouseDown (Some rect) e st) = false
     /\ isPanning (handleMouseDown (Some rect) e st) = true)
  /\ dragStart (handleMouseDown (Some rect) e st) = {| pt_x := clientX e; pt_y := clientY e |}
  /\ layers (handleMouseDown (Some rect) e st) = layers st
  /\ view (handleMouseDown (Some rect) e st) = view st
  /\ (isDragging (handleMouseDown (Some rect) e st) = true ->
      exists layer,
        In layer (layers st)
        /\ activeLayerId (handleMouseDown (Some rect) e st) = Some (id layer)
        /\ hits (fst (worldPoint (view st) (sub (clientX e) (left rect)) (sub (clientY e) (top rect))))
                (snd (worldPoint (view st) (sub (clientX e) (left rect)) (sub (clientY e) (top rect))))
                layer = true)
  /\ idle (handleMouseUp (handleMouseDown (Some rect) e st))
  /\ handleMouseDown None e st = st.
Proof.
  intros [Hd Hp].
  pose proof (@hitTest_Some_hits _ _ (view st) (layers st) (sub (clientX e) (left rect))
                (sub (clientY e) (top rect))) as Ht.
  destruct (handleMouseDown_keeps (Some rect) e st) as (Hl & Hv & _ & _).
  split; [| split; [| split; [exact Hl | split; [exact Hv | split; [| split; [| reflexivity]]]]]].
  - unfold handleMouseDown.
    destruct (isSpacePressed st || Z.eqb (button e) 1); [right; cbn; auto |].
    destruct (hitTest _ _ _ _) as [i |]; [| right; cbn; auto].
    destruct (String.eqb i EmptyString); [right; cbn; auto |].
    left. destruct (findLayer i (layers st)); cbn; auto.
  - unfold handleMouseDown.
    destruct (isSpacePressed st || Z.eqb (button e) 1); [reflexivity |].
    destruct (hitTest _ _ _ _) as [i |]; [| reflexivity].
    destruct (String.eqb i EmptyString); [reflexivity |].
    destruct (findLayer i (layers st)); reflexivity.
  - unfold handleMouseDown.
    destruct (isSpacePressed st || Z.eqb (button e) 1); [cbn; congruence |].
    destruct (hitTest _ _ _ _) as [i |]; [| cbn; congruence].
    destruct (String.eqb i EmptyString); [cbn; congruence |].
    destruct (Ht i eq_refl) as (layer & Hin & Hi & Hh).
    intros _. exists layer. rewrite Hi. split; [exact Hin | split; [| exact Hh]].
    destruct (findLayer i (layers st)); reflexivity.
  - split; reflexivity.
Qed.

(** The ids of the list are those of the layers. *)
Lemma updateLayer_ids (i : string) (updates : PartialLayer (N:=N)) (st : EditorState (N:=N)) :
  p_id updates = None ->
  map (fun l => id l) (layers (updateLayer i updates st)) = map (fun l => id l) (layers st).
Proof.
  intros Hn. rewrite updateLayer_layers, map_map. apply map_ext. intros l.
  destruct (String.eqb (id l) i); [| reflexivity]. cbn. rewrite Hn. reflexivity.
Qed.

Lemma selectionPresent_ids (st st' : EditorState (N:=N)) :
  (forall a, In a (map (fun l => id l) (layers st)) -> In a (map (fun l => id l) (layers st'))) ->
  activeLayerId st' = activeLayerId st ->
  selectionPresent st -> selectionPresent st'.
Proof.
  intros Hids Ha Hs a Ea. rewrite Ha in Ea. destruct (Hs a Ea) as (l & Hin & Hid).
  assert (Hm : In a (map (fun l => id l) (layers st'))).
  { apply Hids. apply in_map_iff. exists l. split; assumption. }
  apply in_map_iff in Hm. destruct Hm as (l' & Hid' & Hin'). exists l'. split; assumption.
Qed.

(** X18: updating an id that no layer has changes nothing. *)
Theorem updateLayer_absent (i : string) (updates : PartialLayer (N:=N))
    (st : EditorState (N:=N)) :
  (forall l, In l (layers st) -> id l <> i) -> updateLayer i updates st = st.
Proof.
  intros Habs.
  assert (Hl : map (fun l => if String.eqb (id l) i then spread l updates else l) (layers st)
               = layers st).
  { rewrite <- (map_id (layers st)) at 2. apply map_ext_in. intros l Hin.
    apply Habs in Hin. apply String.eqb_neq in Hin. rewrite Hin. reflexivity. }
  unfold updateLayer, setLayers. cbv beta. rewrite Hl. destruct st; reflexivity.
Qed.

(** X19: deleting is idempotent, and deletions commute. *)
Theorem deleteLayer_idempotent_commutes (i j : string) (st : EditorState (N:=N)) :
  deleteLayer i (deleteLayer i st) = deleteLayer i st
  /\ deleteLayer i (deleteLayer j st) = deleteLayer j (deleteLayer i st).
Proof.
  assert (ext : forall s1 s2 : EditorState (N:=N),
            layers s1 = layers s2 -> activeLayerId s1 = activeLayerId s2 ->
            isDragging s1 = isDragging s2 -> isPanning s1 = isPanning s2 ->
            isSpacePressed s1 = isSpacePressed s2 -> dragStart s1 = dragStart s2 ->
            initialPos s1 = initialPos s2 -> initialView s1 = initialView s2 ->
            canvasSize s1 = canvasSize s2 -> view s1 = view s2 -> glRef s1 = glRef s2 ->
            programRef s1 = programRef s2 -> s1 = s2).
  { intros [] []; cbn; intros; subst; reflexivity. }
  assert (other : forall (k : string) (s : EditorState (N:=N)),
            isDragging (deleteLayer k s) = isDragging s
            /\ isPanning (deleteLayer k s) = isPanning s
            /\ isSpacePressed (deleteLayer k s) = isSpacePressed s
            /\ dragStart (deleteLayer k s) = dragStart s
            /\ initialPos (deleteLayer k s) = initialPos s
            /\ initialView (deleteLayer k s) = initialView s
            /\ canvasSize (deleteLayer k s) = canvasSize s
            /\ view (deleteLayer k s) = view s
            /\ programRef (deleteLayer k s) = programRef s).
  { intros k s. unfold deleteLayer. destruct (activeLayerId s) as [a |];
      [destruct (String.eqb a k) |]; repeat split. }
  split.
  - destruct (other i st) as (O1 & O2 & O3 & O4 & O5 & O6 & O7 & O8 & O9).
    destruct (other i (deleteLayer i st)) as (P1 & P2 & P3 & P4 & P5 & P6 & P7 & P8 & P9).
    apply ext; try congruence.
    + rewrite !deleteLayer_layers.
      induction (layers st) as [| l ls IH]; [reflexivity |]. cbn.
      destruct (String.eqb (id l) i) eqn:E; cbn; rewrite ?E; cbn; rewrite IH; reflexivity.
    + rewrite !deleteLayer_activeLayerId.
      destruct (activeLayerId st) as [a |]; [| reflexivity].
      destruct (String.eqb a i) eqn:E; [reflexivity | rewrite E; reflexivity].
    + rewrite !deleteLayer_glRef. reflexivity.
  - destruct (other i st) as (O1 & O2 & O3 & O4 & O5 & O6 & O7 & O8 & O9).
    destruct (other j st) as (Q1 & Q2 & Q3 & Q4 & Q5 & Q6 & Q7 & Q8 & Q9).
    destruct (other i (deleteLayer j st)) as (P1 & P2 & P3 & P4 & P5 & P6 & P7 & P8 & P9).
    destruct (other j (deleteLayer i st)) as (R1 & R2 & R3 & R4 & R5 & R6 & R7 & R8 & R9).
    apply ext; try congruence.
    + rewrite !deleteLayer_layers. apply filter_comm.
    + rewrite !deleteLayer_activeLayerId.
      destruct (activeLayerId st) as [a |]; [| reflexivity].
      destruct (String.eqb a i) eqn:Ei; destruct (String.eqb a j) eqn:Ej;
        rewrite ?Ei, ?Ej; reflexivity.
    + rewrite !deleteLayer_glRef. reflexivity.
Qed.

(** X17: while the space bar is held (pressed outside an input field, not
    a key repeat), a press on the canvas pans and neither selects nor
    drags a layer, whatever is under the pointer; a key press inside an
    input field is ignored, and releasing the space bar ends it. *)
Theorem space_bar_pans (k : KeyboardEvent) (rect : DOMRect (N:=N)) (e : MouseEvent (N:=N))
    (st : EditorState (N:=N)) :
  code k = "Space"%string -> repeat k = false -> targetTagName k <> "INPUT"%string ->
  isPanning (handleMouseDown (Some rect) e (handleKeyDown k st)) = true
  /\ isDragging (handleMouseDown (Some rect) e (handleKeyDown k st)) = isDragging st
  /\ activeLayerId (handleMouseDown (Some rect) e (handleKeyDown k st)) = activeLayerId st
  /\ layers (handleMouseDown (Some rect) e (handleKeyDown k st)) = layers st
  /\ initialView (handleMouseDown (Some rect) e (handleKeyDown k st))
     = {| pt_x := view_x (view st); pt_y := view_y (view st) |}
  /\ isSpacePressed (handleKeyUp k (handleKeyDown k st)) = false.
Proof.
  intros Hc Hr Ht. apply String.eqb_neq in Ht.
  unfold handleKeyDown, handleKeyUp. rewrite Hc, Hr, Ht. cbn.
  repeat split.
Qed.

Lemma key_in_input_ignored (k : KeyboardEvent) (st : EditorState (N:=N)) :
  targetTagName k = "INPUT"%string -> handleKeyDown k st = st.
Proof.
  intros Ht. unfold handleKeyDown. rewrite Ht. cbn. rewrite andb_false_r. reflexivity.
Qed.

End PointerAndList.


Section Reordering.

Context {N : Type} `{Arith N}.

Lemma findIndex_Some (A : Type) (f : A -> bool) (l : list A) (n : nat) :
  findIndex f l = Some n -> exists a, nth_error l n = Some a /\ f a = true.
Proof.
  revert n. induction l as [| b l IH]; cbn; intros n E; [discriminate E |].
  destruct (f b) eqn:Hb.
  - injection E as <-. exists b. split; [reflexivity | exact Hb].
  - destruct (findIndex f l) as [m |]; [| discriminate E].
    injection E as <-. destruct (IH m eq_refl) as (a & Ha & Hf).
    exists a. split; assumption.
Qed.

Lemma findIndex_None (A : Type) (f : A -> bool) (l : list A) :
  findIndex f l = None <-> forall a, In a l -> f a = false.
Proof.
  induction l as [| b l IH]; cbn.
  - split; [intros _ a [] | reflexivity].
  - destruct (f b) eqn:Hb.
    + split; [discriminate |]. intros Hall. rewrite (Hall b) in Hb by (left; reflexivity).
      discriminate Hb.
    + destruct (findIndex f l) as [m |].
      * split; [discriminate |]. intros Hall.
        assert (E : Some m = None) by (apply IH; intros a Ha; apply Hall; right; exact Ha).
        discriminate E.
      * split; [| reflexivity]. intros _ a [<- | Ha]; [exact Hb |].
        apply (proj1 IH eq_refl a Ha).
Qed.

Lemma nth_error_cut (A : Type) (l : list A) (n : nat) (a : A) :
  nth_error l n = Some a -> l = firstn n l ++ a :: skipn (S n) l.
Proof.
  revert n. induction l as [| b l IH]; intros [| n] E; cbn in *; try discriminate E.
  - injection E as ->. reflexivity.
  - f_equal. apply IH, E.
Qed.

Lemma splice_perm (A : Type) (from to : nat) (item : A) (l : list A) :
  nth_error l from = Some item ->
  Permutation (spliceIn to item (spliceOut from l)) l.
Proof.
  intros E. pose proof (nth_error_cut l from E) as C.
  unfold spliceIn. set (l' := spliceOut from l).
  apply perm_trans with (item :: firstn to l' ++ skipn to l').
  - apply Permutation_sym, Permutation_middle.
  - rewrite firstn_skipn. unfold l', spliceOut.
    eapply perm_trans; [apply Permutation_middle |].
    rewrite <- C. apply Permutation_refl.
Qed.



Lemma renumberFrom_length (len i : nat) (l : list (ImageLayer (N:=N))) :
  List.length (renumberFrom len i l) = List.length l.
Proof. revert i. induction l as [| a l IH]; intros i; cbn; [| rewrite IH]; reflexivity. Qed.

Lemma renumberFrom_keys (len i : nat) (l : list (ImageLayer (N:=N))) :
  map (fun a => zIndex a) (renumberFrom len i l)
  = map (fun j => (Z.of_nat len - Z.of_nat j)%Z) (seq i (List.length l)).
Proof. revert i. induction l as [| a l IH]; intros i; cbn; [| rewrite IH]; reflexivity. Qed.

Lemma renumberFrom_fields (len i : nat) (l : list (ImageLayer (N:=N))) :
  map (withZIndex 0) (renumberFrom len i l) = map (withZIndex 0) l.
Proof. revert i. induction l as [| a l IH]; intros i; cbn; [| rewrite IH]; reflexivity. Qed.


Lemma renumber_dense (l : list (ImageLayer (N:=N))) : denseKeys (renumber l).
Proof.
  unfold denseKeys, renumber. rewrite renumberFrom_length. apply renumberFrom_keys.
Qed.

Lemma denseKeys_bounded (l : list (ImageLayer (N:=N))) :
  denseKeys l -> Forall (fun a => (zIndex a <= Z.of_nat (List.length l))%Z) l.
Proof.
  unfold denseKeys. intros Hd. apply Forall_forall. intros a Ha.
  apply (in_map (fun a => zIndex a)) in Ha. rewrite Hd in Ha.
  apply in_map_iff in Ha. destruct Ha as (j & <- & _). lia.
Qed.

(** On every path [onDrop] keeps the layers up to their order and
    their z-order keys. *)
Lemma onDrop_fields (index : nat) (draggedId : string) (st : EditorState (N:=N)) :
  Permutation (map (withZIndex 0) (layers (onDrop index draggedId st)))
              (map (withZIndex 0) (layers st)).
Proof.
  unfold onDrop.
  destruct (nth_error _ index) as [target |]; [| apply Permutation_refl].
  destruct (String.eqb draggedId (id target)); [apply Permutation_refl |].
  destruct (findIndex _ _) as [from |]; [| apply Permutation_refl].
  destruct (nth_error _ from) as [item |] eqn:Ei; [| apply Permutation_refl].
  cbn [layers setLayers]. unfold renumber. rewrite renumberFrom_fields.
  apply Permutation_map. eapply perm_trans; [apply (@splice_perm _ _ index _ _ Ei) |].
  apply Array_sort_perm.
Qed.


(** X21: [onDrop] does nothing when the row does not exist, when the
    layer is dropped on its own row, or when no layer has the dragged
    id. *)
Theorem onDrop_nothing_to_move (index : nat) (draggedId : string) (st : EditorState (N:=N)) :
  nth_error (Array_sort byZ_descending (layers st)) index = None
  \/ (exists target, nth_error (Array_sort byZ_descending (layers st)) index = Some target
                     /\ id target = draggedId)
  \/ (forall l, In l (layers st) -> id l <> draggedId) ->
  onDrop index draggedId st = st.
Proof.
  intros [En | [(target & Et & Hid) | Habs]]; unfold onDrop.
  - rewrite En. reflexivity.
  - rewrite Et, Hid, String.eqb_refl. reflexivity.
  - destruct (nth_error _ index) as [target |]; [| reflexivity].
    destruct (String.eqb draggedId (id target)); [reflexivity |].
    assert (Ef : findIndex (fun a => String.eqb (id a) draggedId)
                   (Array_sort byZ_descending (layers st)) = None).
    { apply findIndex_None. intros a Ha.
      apply (proj1 (Array_sort_In byZ_descending (layers st) a)) in Ha.
      apply String.eqb_neq, Habs, Ha. }
    rewrite Ef. reflexivity.
Qed.

(** X22: an upload that follows a reordering gets a z-order key above
    every layer. *)
Theorem upload_after_reorder_on_top (index : nat) (draggedId fileName newId : string)
    (target : ImageLayer (N:=N)) (img : HTMLImageElement (N:=N)) (st : EditorState (N:=N)) :
  nth_error (Array_sort byZ_descending (layers st)) index = Some target ->
  id target <> draggedId ->
  (exists l, In l (layers st) /\ id l = draggedId) ->
  exists newLayer,
    layers (addLayer (onDrop index draggedId st) fileName newId img (onDrop index draggedId st))
    = layers (onDrop index draggedId st) ++ [newLayer]
    /\ Forall (fun l => (zIndex l < zIndex newLayer)%Z) (layers (onDrop index draggedId st)).
Proof.
  intros Et Hne Hex.
  assert (Hd : denseKeys (layers (onDrop index draggedId st))).
  { unfold onDrop. rewrite Et.
    destruct (String.eqb_spec draggedId (id target)) as [E | _]; [congruence |].
    destruct Hex as (l & Hin & Hid).
    set (sorted := Array_sort byZ_descending (layers st)).
    destruct (findIndex (fun a => String.eqb (id a) draggedId) sorted) as [from |] eqn:Ef.
    - destruct (@findIndex_Some _ _ _ _ Ef) as (item & Ei & _). rewrite Ei. apply renumber_dense.
    - exfalso. rewrite findIndex_None in Ef.
      assert (Hs : In l sorted) by (apply (Array_sort_In byZ_descending); exact Hin).
      specialize (Ef l Hs). cbn in Ef. apply String.eqb_neq in Ef. contradiction. }
  apply addLayer_above_when_dense, denseKeys_bounded, Hd.
Qed.

(** X23: the selection keeps naming a layer of the list: if it does (or is
    none) before an upload, a deletion, a reordering, a pointer press,
    move or release, or an update that supplies no id, it does after. *)
Theorem selection_stays_present (seen : EditorState (N:=N)) (fileName newId i draggedId : string)
    (img : HTMLImageElement (N:=N)) (index : nat) (rect : option (DOMRect (N:=N)))
    (e : MouseEvent (N:=N)) (updates : PartialLayer (N:=N)) (st : EditorState (N:=N)) :
  selectionPresent st ->
  selectionPresent (addLayer seen fileName newId img st)
  /\ selectionPresent (deleteLayer i st)
  /\ selectionPresent (onDrop index draggedId st)
  /\ selectionPresent (handleMouseDown rect e st)
  /\ selectionPresent (handleMouseMove e st)
  /\ selectionPresent (handleMouseUp st)
  /\ (p_id updates = None -> selectionPresent (updateLayer i updates st)).
Proof.
  intros Hs.
  assert (Hupd : forall j u, p_id u = None -> selectionPresent (updateLayer j u st)).
  { intros j u Hu. apply (selectionPresent_ids (st := st)); [| reflexivity | exact Hs].
    rewrite (@updateLayer_ids _ j u st Hu). auto. }
  split; [| split; [| split; [| split; [| split; [| split]]]]].
  - unfold addLayer, createTexture. destruct (glRef st) as [live |]; cbn;
      intros a Ea; injection Ea as <-; eexists; (split; [apply in_or_app; right; left; reflexivity |]);
      reflexivity.
  - intros a Ea. rewrite deleteLayer_activeLayerId in Ea.
    destruct (activeLayerId st) as [b |] eqn:Eb; [| discriminate Ea].
    destruct (String.eqb_spec b i) as [-> | Hne]; [discriminate Ea |].
    injection Ea as <-. destruct (Hs b Eb) as (l & Hin & Hid).
    exists l. split; [| exact Hid].
    rewrite deleteLayer_layers. apply filter_In. split; [exact Hin |].
    apply negb_true_iff, String.eqb_neq. congruence.
  - apply (selectionPresent_ids (st := st)); [| | exact Hs].
    + intros a Ha.
      assert (Hp : Permutation (map (fun l => id l) (layers st))
                     (map (fun l => id l) (layers (onDrop index draggedId st)))).
      { pose proof (Permutation_map (fun l => id l)
                      (Permutation_sym (onDrop_fields index draggedId st))) as P.
        rewrite !map_map in P. exact P. }
      apply (Permutation_in _ Hp Ha).
    + unfold onDrop. destruct (nth_error _ index) as [target |]; [| reflexivity].
      destruct (String.eqb draggedId (id target)); [reflexivity |].
      destruct (findIndex _ _) as [from |]; [| reflexivity].
      destruct (nth_error _ from); reflexivity.
  - unfold handleMouseDown. destruct rect as [r |]; [| exact Hs].
    destruct (isSpacePressed st || Z.eqb (button e) 1); [exact Hs |].
    pose proof (@hitTest_Some_hits _ _ (view st) (layers st) (sub (clientX e) (left r))
                  (sub (clientY e) (top r))) as Ht.
    destruct (hitTest _ _ _ _) as [j |]; [| intros a Ea; discriminate Ea].
    destruct (String.eqb j EmptyString); [intros a Ea; discriminate Ea |].
    destruct (Ht j eq_refl) as (layer & Hin & Hj & _).
    assert (G : forall s : EditorState (N:=N),
              layers s = layers st -> activeLayerId s = Some j -> selectionPresent s).
    { intros s Hl Ha a Ea. rewrite Ha in Ea. injection Ea as <-.
      exists layer. rewrite Hl. split; assumption. }
    destruct (findLayer j (layers st)); apply G; reflexivity.
  - unfold handleMouseMove. destruct (isPanning st); [exact Hs |].
    destruct (isDragging st); [| exact Hs].
    destruct (activeLayerId st) as [a |]; [| exact Hs].
    destruct (String.eqb a EmptyString); [exact Hs |].
    apply Hupd. reflexivity.
  - exact Hs.
  - apply Hupd.
Qed.

End Reordering.


(** ** More theorems in exact arithmetic *)

Module IdealMore.

Local Open Scope R_scope.

(** *** The matrix helpers *)

(** X1: [m3_multiply] is associative. *)
Theorem m3_multiply_assoc (a b c : m3 (N:=R)) :
  m3_multiply (m3_multiply a b) c = m3_multiply a (m3_multiply b c).
Proof.
  unfold m3_multiply.
  cbn [e0 e1 e2 e3 e4 e5 e6 e7 e8]. exact_arith.
  f_equal; ring.
Qed.

(** X2: in the vertex shader the product [m3_multiply a b] of [a] with an
    affine [b] acts as [b] followed by [a]. *)
Theorem m3_multiply_composes (a b : m3 (N:=R)) (p : vec2 (N:=R)) :
  affine b ->
  VS_SOURCE (m3_multiply a b) p = VS_SOURCE a (VS_SOURCE b p).
Proof.
  intros (H2 & H5 & H8). unfold VS_SOURCE. change (of_Z 1) with 1.
  rewrite Ideal.m3_multiply_apply.
  destruct (mat3_mul_vec3 b (vx p) (vy p) 1) as [[bx by_] bz] eqn:Eb.
  cbn [fst snd vx vy].
  assert (Hz : bz = 1).
  { unfold mat3_mul_vec3 in Eb. injection Eb as _ _ Ez. rewrite <- Ez, H2, H5, H8.
    exact_arith. ring. }
  rewrite Hz. reflexivity.
Qed.

Lemma m3_multiply_composes_witness :
  VS_SOURCE (m3_multiply (m3_scale 2 3) (m3_translation 1 1)) (Vec2 0 0)
  = VS_SOURCE (m3_scale 2 3) (VS_SOURCE (m3_translation 1 1) (Vec2 0 0)).
Proof.
  apply (@m3_multiply_composes (m3_scale 2 3) (m3_translation 1 1) (Vec2 0 0)).
  repeat split.
Defined.

Lemma m3_translation_compose (a b c d : R) :
  m3_multiply (m3_translation a b) (m3_translation c d) = m3_translation (a + c) (b + d).
Proof.
  unfold m3_multiply, m3_translation. cbn [e0 e1 e2 e3 e4 e5 e6 e7 e8]. exact_arith.
  f_equal; ring.
Qed.

Lemma m3_scale_compose (a b c d : R) :
  m3_multiply (m3_scale a b) (m3_scale c d) = m3_scale (a * c) (b * d).
Proof.
  unfold m3_multiply, m3_scale. cbn [e0 e1 e2 e3 e4 e5 e6 e7 e8]. exact_arith.
  f_equal; ring.
Qed.

Lemma m3_rotation_compose (a b : R) :
  m3_multiply (m3_rotation a) (m3_rotation b) = m3_rotation (a + b).
Proof.
  unfold m3_multiply, m3_rotation. cbn [e0 e1 e2 e3 e4 e5 e6 e7 e8]. exact_arith.
  rewrite cos_plus, sin_plus. f_equal; ring.
Qed.

(** X3: translations compose by adding their offsets, scalings by
    multiplying their factors and rotations by adding their angles. *)
Theorem m3_same_kind_compose (a b c d : R) :
  m3_multiply (m3_translation a b) (m3_translation c d) = m3_translation (a + c) (b + d)
  /\ m3_multiply (m3_scale a b) (m3_scale c d) = m3_scale (a * c) (b * d)
  /\ m3_multiply (m3_rotation a) (m3_rotation b) = m3_rotation (a + b).
Proof.
  split; [apply m3_translation_compose | split; [apply m3_scale_compose | apply m3_rotation_compose]].
Qed.

(** X4: the translation by nothing, the scaling by 1 and the rotation by
    0 are the identity matrix, which is neutral for [m3_multiply]; a
    translation, a rotation and a non-zero scaling are undone by the
    opposite one. *)
Theorem m3_identity_neutral (m : m3 (N:=R)) (a b : R) :
  m3_translation 0 0 = m3_identity
  /\ m3_scale 1 1 = m3_identity
  /\ m3_rotation 0 = m3_identity
  /\ m3_multiply m3_identity m = m
  /\ m3_multiply m m3_identity = m
  /\ m3_multiply (m3_translation a b) (m3_translation (- a) (- b)) = m3_identity
  /\ m3_multiply (m3_rotation a) (m3_rotation (- a)) = m3_identity
  /\ (a <> 0 -> b <> 0 -> m3_multiply (m3_scale a b) (m3_scale (1 / a) (1 / b)) = m3_identity).
Proof.
  assert (Hr : m3_rotation (N:=R) 0 = m3_identity).
  { unfold m3_rotation, m3_identity. exact_arith. rewrite cos_0, sin_0, Ropp_0. reflexivity. }
  pose proof (m3_translation_compose a b (- a) (- b)) as Ht.
  pose proof (m3_rotation_compose a (- a)) as Hrot.
  split; [reflexivity | split; [reflexivity | split; [exact Hr |]]].
  split; [| split; [| split; [| split]]].
  - destruct m as [m0 m1 m2 m3' m4 m5 m6 m7 m8]. unfold m3_multiply, m3_identity. cbn [e0 e1 e2 e3 e4 e5 e6 e7 e8]. exact_arith.
    f_equal; ring.
  - destruct m as [m0 m1 m2 m3' m4 m5 m6 m7 m8]. unfold m3_multiply, m3_identity. cbn [e0 e1 e2 e3 e4 e5 e6 e7 e8]. exact_arith.
    f_equal; ring.
  - rewrite Ht. replace (a + - a) with 0 by ring. replace (b + - b) with 0 by ring. reflexivity.
  - rewrite Hrot. replace (a + - a) with 0 by ring. exact Hr.
  - intros Ha Hb. rewrite m3_scale_compose. replace (a * (1 / a)) with 1 by (field; exact Ha).
    replace (b * (1 / b)) with 1 by (field; exact Hb). reflexivity.
Qed.


(** *** The distortion *)

Lemma FS_uv_is_fs_uv (k : R) (t : vec2 (N:=R)) : FS_uv k t = fs_uv k 1 t.
Proof.
  unfold FS_uv, fs_uv, dot. cbv zeta. cbn [vx vy]. exact_arith. f_equal; field.
Qed.

Lemma no_distortion_lookup (t : vec2 (N:=R)) : fs_uv 0 1 t = t.
Proof.
  destruct t as [u v]. rewrite Ideal.fs_uv_formula. f_equal; field.
Qed.

(** X24: with coefficient 0 (and zoom 1) both shaders look every texture
    coordinate up at itself: inside the unit square the single-image
    shader yields the texture's colour there, and the layered shader the
    same colour with its alpha multiplied by the layer's opacity. *)
Theorem no_distortion_is_identity (u_image : vec2 (N:=R) -> vec4 (N:=R)) (u_opacity : R)
    (t : vec2 (N:=R)) :
  inUnitSquare t ->
  fs_uv 0 1 t = t /\ FS_uv 0 t = t
  /\ fsSource u_image 0 1 t = gl_FragColor (u_image t)
  /\ FS_SOURCE u_image 0 u_opacity t
     = gl_FragColor (Vec4 (cr (u_image t)) (cg (u_image t)) (cb (u_image t))
                          (ca (u_image t) * u_opacity)).
Proof.
  intros [Hx Hy].
  assert (E : fs_uv (N:=R) 0 1 t = t) by apply no_distortion_lookup.
  assert (E' : FS_uv (N:=R) 0 t = t) by (rewrite FS_uv_is_fs_uv; exact E).
  assert (O : outside t = false) by (apply Ideal.outside_false; assumption).
  repeat split; [exact E | exact E' | |].
  - unfold fsSource. rewrite E, O. reflexivity.
  - unfold FS_SOURCE. rewrite E', O. reflexivity.
Qed.

Lemma no_distortion_witness :
  fsSource (fun uv => Vec4 (vx uv) (vy uv) 0 1) 0 1 (Vec2 (1 / 4) (3 / 4))
  = gl_FragColor (Vec4 (1 / 4) (3 / 4) 0 1).
Proof.
  assert (Hi : inUnitSquare (Vec2 (1 / 4) (3 / 4))) by (unfold inUnitSquare; cbn [vx vy]; lra).
  exact (proj1 (proj2 (proj2 (@no_distortion_is_identity
                                (fun uv => Vec4 (vx uv) (vy uv) 0 1) 1 (Vec2 (1 / 4) (3 / 4)) Hi)))).
Defined.

(** X25: the centre of the image is a fixed point of the lookup for every
    coefficient and every non-zero zoom: the centre pixel always shows
    the texture's centre. *)
Theorem centre_is_fixed (u_image : vec2 (N:=R) -> vec4 (N:=R)) (k zoom : R) :
  zoom <> 0 ->
  fs_uv k zoom (Vec2 (1 / 2) (1 / 2)) = Vec2 (1 / 2) (1 / 2)
  /\ FS_uv k (Vec2 (1 / 2) (1 / 2)) = Vec2 (1 / 2) (1 / 2)
  /\ fsSource u_image k zoom (Vec2 (1 / 2) (1 / 2)) = gl_FragColor (u_image (Vec2 (1 / 2) (1 / 2))).
Proof.
  intros Hz.
  assert (E : fs_uv (N:=R) k zoom (Vec2 (1 / 2) (1 / 2)) = Vec2 (1 / 2) (1 / 2)).
  { rewrite Ideal.fs_uv_formula. f_equal; field; exact Hz. }
  split; [exact E | split].
  - rewrite FS_uv_is_fs_uv, Ideal.fs_uv_formula. f_equal; field.
  - unfold fsSource. rewrite E, Ideal.outside_false by (cbn [vx vy]; lra). reflexivity.
Qed.

Lemma centre_is_fixed_witness :
  fs_uv 2 3 (Vec2 (1 / 2) (1 / 2)) = Vec2 (1 / 2) (1 / 2).
Proof.
  assert (Hz : 3 <> 0) by lra.
  exact (proj1 (@centre_is_fixed (fun _ => Vec4 0 0 0 0) 2 3 Hz)).
Defined.

Lemma shrinking_factor_inside (a b f : R) :
  - (1 / 2) <= a <= 1 / 2 -> 0 <= f <= 1 -> 0 <= a * f + 5 / 10 <= 1.
Proof. intros Ha Hf. split; nra. Qed.

(** X26: at zoom 1 a coefficient between -2 and 0 (the lower half of the
    slider) never produces a transparent pixel: every texture
    coordinate of the quad is looked up inside the texture, in both
    shaders. *)
Theorem no_borders_below_zero (k : R) (t : vec2 (N:=R)) :
  -2 <= k <= 0 -> inUnitSquare t ->
  outside (fs_uv k 1 t) = false /\ outside (FS_uv k t) = false.
Proof.
  intros Hk [Hx Hy].
  assert (O : outside (fs_uv (N:=R) k 1 t) = false).
  { destruct t as [u v]. cbn [vx vy] in Hx, Hy. rewrite Ideal.fs_uv_formula.
    set (a := u - 5 / 10). set (b := v - 5 / 10).
    assert (Ha : - (1 / 2) <= a <= 1 / 2) by (unfold a; lra).
    assert (Hb : - (1 / 2) <= b <= 1 / 2) by (unfold b; lra).
    assert (Hr : 0 <= a * a + b * b <= 1 / 2) by nra.
    assert (Hf : 0 <= 1 + k * (a * a + b * b) <= 1) by nra.
    apply Ideal.outside_false; cbn [vx vy].
    - replace (a * (1 + k * (a * a + b * b)) / 1) with (a * (1 + k * (a * a + b * b))) by field.
      apply (shrinking_factor_inside a); assumption.
    - replace (b * (1 + k * (a * a + b * b)) / 1) with (b * (1 + k * (a * a + b * b))) by field.
      apply (shrinking_factor_inside a); assumption. }
  split; [exact O | rewrite FS_uv_is_fs_uv; exact O].
Qed.

Lemma no_borders_witness :
  outside (fs_uv (-2) 1 (Vec2 0 1)) = false /\ outside (FS_uv (-2) (Vec2 0 1)) = false.
Proof.
  apply (@no_borders_below_zero (-2) (Vec2 0 1)).
  - lra.
  - unfold inUnitSquare. cbn [vx vy]. lra.
Defined.

(** X27: at zoom 1 every positive coefficient makes the four corners of
    the image transparent (single image) or discarded (layer). *)
Theorem corners_lost_above_zero (u_image : vec2 (N:=R) -> vec4 (N:=R)) (k u_opacity : R) :
  0 < k ->
  Forall (fun c => fsSource u_image k 1 c = gl_FragColor (Vec4 0 0 0 0)
                   /\ FS_SOURCE u_image k u_opacity c = discard)
         cornerTexCoords.
Proof.
  intros Hk.
  assert (corner : forall u v, (u = 0 \/ u = 1) -> (v = 0 \/ v = 1) ->
            outside (fs_uv (N:=R) k 1 (Vec2 u v)) = true).
  { intros u v Hu Hv. apply Ideal.outside_true. rewrite Ideal.fs_uv_formula.
    unfold outOfUnitSquare. cbn [vx vy].
    destruct Hu as [-> | ->]; [left | right; left]; nra. }
  unfold cornerTexCoords.
  repeat (apply Forall_cons; [| ]); try apply Forall_nil;
    (split; [unfold fsSource | unfold FS_SOURCE; rewrite FS_uv_is_fs_uv];
     rewrite corner by auto; reflexivity).
Qed.

Lemma corners_lost_witness :
  Forall (fun c => fsSource (fun _ => Vec4 1 1 1 1) (1 / 100) 1 c = gl_FragColor (Vec4 0 0 0 0)
                   /\ FS_SOURCE (fun _ => Vec4 1 1 1 1) (1 / 100) 1 c = discard)
         cornerTexCoords.
Proof.
  apply (@corners_lost_above_zero (fun _ => Vec4 1 1 1 1) (1 / 100) 1). lra.
Defined.

(** X28: without distortion a zoom of at least 1 magnifies about the
    centre and never leaves the texture: the lookup is
    [(t - 1/2) / zoom + 1/2], inside the unit square. *)
Theorem zoom_in_stays_inside (u_image : vec2 (N:=R) -> vec4 (N:=R)) (zoom : R)
    (t : vec2 (N:=R)) :
  1 <= zoom -> inUnitSquare t ->
  fs_uv 0 zoom t = Vec2 ((vx t - 1 / 2) / zoom + 1 / 2) ((vy t - 1 / 2) / zoom + 1 / 2)
  /\ inUnitSquare (fs_uv 0 zoom t)
  /\ fsSource u_image 0 zoom t = gl_FragColor (u_image (fs_uv 0 zoom t)).
Proof.
  intros Hz [Hx Hy].
  assert (E : fs_uv (N:=R) 0 zoom t
              = Vec2 ((vx t - 1 / 2) / zoom + 1 / 2) ((vy t - 1 / 2) / zoom + 1 / 2)).
  { destruct t as [u v]. rewrite Ideal.fs_uv_formula. cbn [vx vy]. f_equal; field; lra. }
  assert (Hi : / zoom <= 1).
  { rewrite <- Rinv_1. apply Rinv_le_contravar; lra. }
  assert (Hp : 0 < / zoom) by (apply Rinv_0_lt_compat; lra).
  assert (I : inUnitSquare (fs_uv (N:=R) 0 zoom t)).
  { rewrite E. unfold inUnitSquare, Rdiv. cbn [vx vy]. split; split; nra. }
  split; [exact E | split; [exact I |]].
  unfold fsSource. destruct I as [Ix Iy]. rewrite Ideal.outside_false by assumption. reflexivity.
Qed.

Lemma zoom_in_witness :
  inUnitSquare (fs_uv 0 2 (Vec2 0 1)).
Proof.
  assert (Hz : 1 <= 2) by lra.
  assert (Hi : inUnitSquare (Vec2 0 1)) by (unfold inUnitSquare; cbn [vx vy]; lra).
  exact (proj1 (proj2 (@zoom_in_stays_inside (fun _ => Vec4 0 0 0 0) 2 (Vec2 0 1) Hz Hi))).
Defined.

(** X29: with a context and a linked program, once an image is loaded,
    and again after [Reset Values] whatever the sliders were set to,
    strength is 0 and zoom 1 and every pixel shows the image's own
    colour there.  The corrector draws nothing before an image is
    loaded, and nothing at all without a context or without a program. *)
Theorem fresh_image_shown_unmodified (u_image : vec2 (N:=R) -> vec4 (N:=R))
    (img : HTMLImageElement (N:=R)) (k z : R) (st : CorrectorState (N:=R)) (t : vec2 (N:=R)) :
  inUnitSquare t -> lc_glRef st <> None -> lc_programRef st <> None ->
  correctorRender u_image (imageLoaded img st) t = Some (gl_FragColor (u_image t))
  /\ correctorRender u_image (resetValues (setZoom z (setStrength k (imageLoaded img st)))) t
     = Some (gl_FragColor (u_image t))
  /\ correctorRender u_image correctorInitial t = None
  /\ (forall answers, correctorRender u_image (correctorInitWebGL answers correctorInitial) t = None)
  /\ (forall s : CorrectorState (N:=R),
        lc_glRef s = None \/ lc_programRef s = None \/ lc_image s = None ->
        correctorRender u_image s t = None).
Proof.
  intros Hi Hg Hp.
  assert (F : fsSource (N:=R) u_image 0 1 t = gl_FragColor (u_image t)).
  { unfold fsSource. rewrite no_distortion_lookup.
    destruct Hi as [Hx Hy]. rewrite Ideal.outside_false by assumption. reflexivity. }
  assert (G : forall s : CorrectorState (N:=R),
            lc_glRef s = None \/ lc_programRef s = None \/ lc_image s = None ->
            correctorRender u_image s t = None).
  { intros s. unfold correctorRender.
    destruct (lc_glRef s), (lc_programRef s), (lc_image s); try reflexivity;
      intros [E | [E | E]]; discriminate E. }
  split; [| split; [| split; [| split]]].
  - unfold correctorRender. cbn. destruct (lc_glRef st); [| congruence].
    destruct (lc_programRef st); [| congruence]. exact (f_equal Some F).
  - unfold correctorRender. cbn. destruct (lc_glRef st); [| congruence].
    destruct (lc_programRef st); [| congruence]. exact (f_equal Some F).
  - reflexivity.
  - intros answers. apply G. right. right. unfold correctorInitWebGL.
    destruct (canvasMounted answers), (contextCreated answers), (vertexShaderCompiled answers),
      (fragmentShaderCompiled answers), (programCreated answers), (programLinked answers);
      reflexivity.
  - exact G.
Qed.

Lemma fresh_image_witness :
  correctorRender (fun uv => Vec4 (vx uv) (vy uv) 0 1) (imageLoaded photo correctorReady)
    (Vec2 (1 / 4) (3 / 4))
  = Some (gl_FragColor (Vec4 (1 / 4) (3 / 4) 0 1)).
Proof.
  assert (Hi : inUnitSquare (Vec2 (1 / 4) (3 / 4))) by (unfold inUnitSquare; cbn [vx vy]; lra).
  assert (Hg : lc_glRef correctorReady <> None) by discriminate.
  assert (Hp : lc_programRef correctorReady <> None) by discriminate.
  exact (proj1 (@fresh_image_shown_unmodified
                  (fun uv => Vec4 (vx uv) (vy uv) 0 1) photo 0 1 correctorReady
                  (Vec2 (1 / 4) (3 / 4)) Hi Hg Hp)).
Defined.


(** *** Dragging, panning and zooming *)

Lemma placeOnCanvas_moved (v : View (N:=R)) (l l' : ImageLayer (N:=R)) (p : vec2 (N:=R)) :
  width l' = width l -> height l' = height l -> scale l' = scale l ->
  rotation l' = rotation l ->
  placeOnCanvas v l' p
  = Vec2 (vx (placeOnCanvas v l p) + view_scale v * (x l' - x l))
         (vy (placeOnCanvas v l p) + view_scale v * (y l' - y l)).
Proof.
  intros Hw Hh Hs Hr. rewrite !Ideal.placeOnCanvas_formula. cbv zeta.
  rewrite Hw, Hh, Hs, Hr. cbn [vx vy]. f_equal; ring.
Qed.

(** X11: a dragged layer follows the pointer: while a layer is dragged
    (its position at the press recorded as [initialPos]) under a
    non-zero zoom, every point of the layer is drawn displaced from
    where it was by exactly the pointer's displacement since the press. *)
Theorem dragged_layer_follows_pointer (e : MouseEvent (N:=R)) (st : EditorState (N:=R))
    (n : nat) (l : ImageLayer (N:=R)) :
  isPanning st = false -> isDragging st = true ->
  activeLayerId st = Some (id l) -> id l <> EmptyString ->
  nth_error (layers st) n = Some l ->
  initialPos st = {| pt_x := x l; pt_y := y l |} ->
  view_scale (view st) <> 0 ->
  exists l',
    nth_error (layers (handleMouseMove e st)) n = Some l'
    /\ view (handleMouseMove e st) = view st
    /\ forall p,
         placeOnCanvas (view st) l' p
         = Vec2 (vx (placeOnCanvas (view st) l p) + (clientX e - pt_x (dragStart st)))
                (vy (placeOnCanvas (view st) l p) + (clientY e - pt_y (dragStart st))).
Proof.
  intros Hp Hd Ha Hne Hn Hi Hv.
  unfold handleMouseMove. rewrite Hp, Hd, Ha.
  apply String.eqb_neq in Hne. rewrite Hne.
  rewrite updateLayer_layers, nth_error_map, Hn. cbn [option_map]. rewrite String.eqb_refl.
  eexists. split; [reflexivity | split; [reflexivity |]].
  intros p. rewrite (@placeOnCanvas_moved (view st) l _ p) by reflexivity.
  cbn [spread x y supplied p_x p_y]. rewrite Hi. cbn [pt_x pt_y]. exact_arith.
  f_equal; f_equal; field; exact Hv.
Qed.

Lemma dragged_layer_witness :
  exists l',
    nth_error (layers (handleMouseMove {| button := 0; clientX := 30; clientY := 40 |}
                 (setInitialPos {| pt_x := 0; pt_y := 0 |}
                   (setIsDragging true
                     (setActiveLayerId (Some "a"%string)
                       (setLayers (fun _ => [rotatedLayer]) ready)))))) 0 = Some l'.
Proof.
  destruct (@dragged_layer_follows_pointer
              {| button := 0; clientX := 30; clientY := 40 |}
              (setInitialPos {| pt_x := 0; pt_y := 0 |}
                (setIsDragging true
                  (setActiveLayerId (Some "a"%string)
                    (setLayers (fun _ => [rotatedLayer]) ready))))
              0 rotatedLayer eq_refl eq_refl eq_refl)
    as (l' & Hn & _).
  - discriminate.
  - reflexivity.
  - reflexivity.
  - cbn. exact_arith. lra.
  - exists l'. exact Hn.
Defined.

(** X12: while panning, the view's offset is the one recorded at the press
    plus the pointer's displacement since, the zoom and the layers are
    kept, and every point of every layer is drawn displaced by exactly
    that displacement from where the recorded view draws it. *)
Theorem panned_view_follows_pointer (e : MouseEvent (N:=R)) (st : EditorState (N:=R)) :
  isPanning st = true ->
  view (handleMouseMove e st)
  = {| view_x := pt_x (initialView st) + (clientX e - pt_x (dragStart st));
       view_y := pt_y (initialView st) + (clientY e - pt_y (dragStart st));
       view_scale := view_scale (view st) |}
  /\ layers (handleMouseMove e st) = layers st
  /\ forall l p,
       placeOnCanvas (view (handleMouseMove e st)) l p
       = Vec2 (vx (placeOnCanvas {| view_x := pt_x (initialView st);
                                    view_y := pt_y (initialView st);
                                    view_scale := view_scale (view st) |} l p)
               + (clientX e - pt_x (dragStart st)))
              (vy (placeOnCanvas {| view_x := pt_x (initialView st);
                                    view_y := pt_y (initialView st);
                                    view_scale := view_scale (view st) |} l p)
               + (clientY e - pt_y (dragStart st))).
Proof.
  intros Hp. unfold handleMouseMove. rewrite Hp. cbn [view setView layers].
  split; [reflexivity | split; [reflexivity |]].
  intros l p. rewrite !Ideal.placeOnCanvas_formula. cbv zeta.
  cbn [view_x view_y view_scale vx vy]. exact_arith. f_equal; ring.
Qed.

Lemma panned_view_witness :
  layers (handleMouseMove {| button := 0; clientX := 30; clientY := 40 |}
            (setIsPanning true ready)) = layers (setIsPanning true ready).
Proof.
  exact (proj1 (proj2 (@panned_view_follows_pointer
                         {| button := 0; clientX := 30; clientY := 40 |}
                         (setIsPanning true ready) eq_refl))).
Defined.

(** X13: two-finger scrolling pans by the opposite of the wheel deltas;
    scrolling back by the opposite deltas restores the view. *)
Theorem wheel_pan_round_trip (rect : DOMRect (N:=R)) (e e' : WheelEvent (N:=R))
    (v : View (N:=R)) :
  ctrlKey e = false -> ctrlKey e' = false ->
  deltaX e' = - deltaX e -> deltaY e' = - deltaY e ->
  handleWheel rect e v
  = {| view_x := view_x v - deltaX e; view_y := view_y v - deltaY e; view_scale := view_scale v |}
  /\ handleWheel rect e' (handleWheel rect e v) = v.
Proof.
  intros Hc Hc' Hx Hy. unfold handleWheel. rewrite Hc, Hc'. split; [reflexivity |].
  cbn [view_x view_y view_scale]. rewrite Hx, Hy. exact_arith.
  destruct v as [px py ps]. cbn [view_x view_y view_scale]. f_equal; ring.
Qed.

Lemma wheel_pan_witness :
  handleWheel {| left := 0; top := 0 |}
    {| ctrlKey := false; wh_clientX := 0; wh_clientY := 0; deltaX := -10; deltaY := -10 |}
    (handleWheel {| left := 0; top := 0 |}
       {| ctrlKey := false; wh_clientX := 0; wh_clientY := 0; deltaX := 10; deltaY := 10 |}
       resetView)
  = resetView.
Proof.
  apply (@wheel_pan_round_trip {| left := 0; top := 0 |}
           {| ctrlKey := false; wh_clientX := 0; wh_clientY := 0; deltaX := 10; deltaY := 10 |}
           {| ctrlKey := false; wh_clientX := 0; wh_clientY := 0; deltaX := -10; deltaY := -10 |}
           resetView); try reflexivity; cbn; exact_arith; lra.
Defined.

(** X14: the [+] and [-] buttons undo each other and leave the offset of
    the view alone (they zoom about the canvas origin, not about the
    pointer or the centre). *)
Theorem zoom_buttons_inverse (v : View (N:=R)) :
  zoomOutButton (zoomInButton v) = v
  /\ zoomInButton (zoomOutButton v) = v
  /\ view_x (zoomInButton v) = view_x v /\ view_y (zoomInButton v) = view_y v
  /\ view_x (zoomOutButton v) = view_x v /\ view_y (zoomOutButton v) = view_y v
  /\ worldPoint (zoomInButton v) (view_x v) (view_y v) = worldPoint v (view_x v) (view_y v).
Proof.
  destruct v as [px py ps]. unfold zoomOutButton, zoomInButton, worldPoint.
  cbn [view_x view_y view_scale]. exact_arith.
  split; [f_equal; field |].
  split; [f_equal; field |].
  split; [reflexivity |]. split; [reflexivity |]. split; [reflexivity |]. split; [reflexivity |].
  unfold Rdiv. f_equal; ring.
Qed.

(** X15: a non-zero zoom stays non-zero under the wheel, the zoom buttons,
    the reset button and the pointer handlers, so the divisions by the
    zoom in the hit test and in dragging stay defined. *)
Theorem zoom_stays_nonzero (rect : DOMRect (N:=R)) (w : WheelEvent (N:=R))
    (e : MouseEvent (N:=R)) (st : EditorState (N:=R)) :
  view_scale (view st) <> 0 ->
  view_scale (handleWheel rect w (view st)) <> 0
  /\ view_scale (zoomInButton (view st)) <> 0
  /\ view_scale (zoomOutButton (view st)) <> 0
  /\ view_scale (N:=R) resetView <> 0
  /\ view_scale (view (handleMouseDown (Some rect) e st)) <> 0
  /\ view_scale (view (handleMouseMove e st)) <> 0
  /\ view_scale (view (handleMouseUp st)) <> 0.
Proof.
  intros Hv.
  split; [| split; [| split; [| split; [| split; [| split]]]]].
  - unfold handleWheel. destruct (ctrlKey w); cbn [view_scale]; [| exact Hv].
    exact_arith.
    pose proof (clamp_range (view_scale (view st) * exp (- deltaY w * (1 / 100)))) as Hc. lra.
  - unfold zoomInButton. cbn [view_scale]. exact_arith. nra.
  - unfold zoomOutButton. cbn [view_scale]. exact_arith.
    intros Hz. apply Hv.
    replace (view_scale (view st)) with (view_scale (view st) / (11 / 10) * (11 / 10)) by field.
    rewrite Hz. ring.
  - cbn. exact_arith. lra.
  - rewrite Ideal.handleMouseDown_view. exact Hv.
  - rewrite Ideal.handleMouseMove_view_scale. exact Hv.
  - exact Hv.
Qed.

Lemma zoom_stays_nonzero_witness :
  view_scale (zoomInButton (view ready)) <> 0 /\ view_scale (zoomOutButton (view ready)) <> 0.
Proof.
  assert (Hv : view_scale (view ready) <> 0) by (cbn; exact_arith; lra).
  split.
  - exact (proj1 (proj2 (@zoom_stays_nonzero {| left := 0; top := 0 |}
                           {| ctrlKey := false; wh_clientX := 0; wh_clientY := 0;
                              deltaX := 0; deltaY := 0 |}
                           {| button := 0; clientX := 0; clientY := 0 |} ready Hv))).
  - exact (proj1 (proj2 (proj2 (@zoom_stays_nonzero {| left := 0; top := 0 |}
                                {| ctrlKey := false; wh_clientX := 0; wh_clientY := 0;
                                   deltaX := 0; deltaY := 0 |}
                                {| button := 0; clientX := 0; clientY := 0 |} ready Hv)))).
Defined.

(** A layer that is not turned. *)
Lemma unrotated_hit_witness :
  let q := placeOnCanvas resetView uprightLayer (Vec2 (1 / 2) 0) in
  let '(wx, wy) := worldPoint resetView (vx q) (vy q) in
  localPoint wx wy uprightLayer = (1 / 2, 0) /\ hits wx wy uprightLayer = true.
Proof.
  apply (@Ideal.hit_inverse_of_placement_unrotated resetView uprightLayer (Vec2 (1 / 2) 0)).
  - cbn. exact_arith. lra.
  - cbn. lra.
  - cbn. lra.
  - apply sin_0.
  - cbn [vx]. rewrite Rabs_pos_eq; lra.
  - cbn [vy]. rewrite Rabs_R0. lra.
Defined.

End IdealMore.


(** ** The pointer, in any arithmetic *)

Section PointerMoves.

Context {N : Type} `{Arith N}.

(** X10: a pointer move is absolute: what it leaves depends on where the
    pointer is, not on the moves before it (panning and dragging are
    computed from the anchor recorded at the press). *)
Theorem pointer_move_is_absolute (e1 e2 : MouseEvent (N:=N)) (st : EditorState (N:=N)) :
  handleMouseMove e2 (handleMouseMove e1 st) = handleMouseMove e2 st.
Proof.
  unfold handleMouseMove at 2. destruct (isPanning st) eqn:Hp.
  - unfold handleMouseMove. cbn [isPanning setView]. rewrite Hp. reflexivity.
  - destruct (isDragging st) eqn:Hd; [| reflexivity].
    destruct (activeLayerId st) as [a |] eqn:Ha; [| reflexivity].
    destruct (String.eqb a EmptyString) eqn:He; [reflexivity |].
    unfold handleMouseMove, updateLayer, setLayers.
    cbn [layers isDragging isPanning isSpacePressed
      activeLayerId dragStart initialPos initialView canvasSize view glRef].
    rewrite Hp, Hd, Ha, He.
    cbn [layers isDragging isPanning isSpacePressed
      activeLayerId dragStart initialPos initialView canvasSize view glRef].
    f_equal. rewrite map_map. apply map_ext. intros l.
    destruct (String.eqb (id l) a) eqn:El; cbn [spread id supplied p_id]; rewrite El; reflexivity.
Qed.

End PointerMoves.

(** ** More theorems in binary64 *)

Section Binary64More.

Variables cos sin exp : float -> float.

Local Hint Extern 0 (Arith float) => exact (binary64 cos sin exp) : typeclass_instances.

(** X16: the zoom [fitToScreen] sets is a finite, non-zero number whatever
    the layers and the canvas are (a fitted scale that is zero, infinite
    or [NaN] is replaced by 1), and with no layer it resets the view;
    it changes nothing but the view. *)
Theorem fitToScreen_zoom_is_usable (st : EditorState (N:=float)) :
  PrimFloat.is_finite
    (view_scale (view (fitToScreen PrimFloat.infinity PrimFloat.is_finite st))) = true
  /\ PrimFloat.eqb
       (view_scale (view (fitToScreen PrimFloat.infinity PrimFloat.is_finite st)))
       PrimFloat.zero = false
  /\ (layers st = [] ->
      view (fitToScreen PrimFloat.infinity PrimFloat.is_finite st)
      = {| view_x := 0%float; view_y := 0%float; view_scale := 1%float |})
  /\ layers (fitToScreen PrimFloat.infinity PrimFloat.is_finite st) = layers st
  /\ activeLayerId (fitToScreen PrimFloat.infinity PrimFloat.is_finite st) = activeLayerId st.
Proof.
  unfold fitToScreen. destruct (layers st) as [| l ls] eqn:El.
  - cbn. rewrite El. repeat split.
  - cbn [view setView view_scale layers activeLayerId]. rewrite El.
    set (newScale := Math_min _ _).
    change (@eqb float (binary64 cos sin exp)) with PrimFloat.eqb.
    change (of_Z 0) with PrimFloat.zero. change (of_Z 1) with 1%float.
    destruct (negb (PrimFloat.is_finite newScale) || PrimFloat.eqb newScale PrimFloat.zero) eqn:E.
    + repeat split. discriminate.
    + apply orb_false_iff in E. destruct E as [Ef Ez]. apply negb_false_iff in Ef.
      repeat split; [exact Ef | exact Ez | discriminate].
Qed.

End Binary64More.

(** A left-button press on a single layer of width 0: the layer cannot be
    hit, the press deselects and pans. *)
Lemma degenerate_fall_through_witness :
  handleMouseDown (H := binary64 (fun _ => 1%float) (fun _ => 0%float) (fun _ => 1%float))
    (Some {| left := 0%float; top := 0%float |})
    {| button := 0; clientX := 5%float; clientY := 5%float |}
    (setLayers (fun _ => [flatLayer])
       (initialState (H := binary64 (fun _ => 1%float) (fun _ => 0%float) (fun _ => 1%float))))
  = startPanning {| button := 0; clientX := 5%float; clientY := 5%float |}
      (setActiveLayerId None
         (setLayers (fun _ => [flatLayer])
            (initialState (H := binary64 (fun _ => 1%float) (fun _ => 0%float) (fun _ => 1%float))))).
Proof.
  apply (@degenerate_layers_fall_through
           (fun _ => 1%float) (fun _ => 0%float) (fun _ => 1%float)
           {| left := 0%float; top := 0%float |}
           {| button := 0; clientX := 5%float; clientY := 5%float |}).
  - reflexivity.
  - reflexivity.
  - constructor; [left; reflexivity | constructor].
Defined.


(** ** The theorems above at concrete states *)

Section MoreScenarios.

Local Open Scope string_scope.

(** The centre of a layer with non-zero extents passes the bounds check. *)
Lemma hits_at_centre (wx wy : R) (l : ImageLayer (N:=R)) :
  wx = x l -> wy = y l -> (width l * scale l <> 0)%R -> (height l * scale l <> 0)%R ->
  hits wx wy l = true.
Proof.
  intros -> -> Hw Hh. unfold hits, localPoint. cbv zeta. exact_arith.
  apply andb_true_intro. split; apply Rleb_true.
  - replace ((x l - x l) * cos (- rotation l) - (y l - y l) * sin (- rotation l))%R
      with 0%R by ring.
    unfold Rdiv. rewrite Rmult_0_l, Rabs_R0. lra.
  - replace ((x l - x l) * sin (- rotation l) + (y l - y l) * cos (- rotation l))%R
      with 0%R by ring.
    unfold Rdiv. rewrite Rmult_0_l, Rabs_R0. lra.
Qed.

Lemma press_on_upright_hits :
  hitTest (view oneUpright) (layers oneUpright)
    (sub (clientX pressAtCentre) (left canvasRect)) (sub (clientY pressAtCentre) (top canvasRect))
  = Some "u".
Proof.
  unfold hitTest. cbn [oneUpright setLayers layers Array_sort fold_right sort_insert hitLoop].
  rewrite hits_at_centre; [reflexivity | | | |]; cbn; exact_arith; try lra; field.
Qed.

(** A press at the centre of the only layer starts dragging it. *)
Lemma press_witness :
  exists layer,
    In layer (layers oneUpright)
    /\ activeLayerId (handleMouseDown (Some canvasRect) pressAtCentre oneUpright) = Some (id layer)
    /\ hits (fst (worldPoint (view oneUpright) (sub (clientX pressAtCentre) (left canvasRect))
                    (sub (clientY pressAtCentre) (top canvasRect))))
            (snd (worldPoint (view oneUpright) (sub (clientX pressAtCentre) (left canvasRect))
                    (sub (clientY pressAtCentre) (top canvasRect))))
            layer = true.
Proof.
  assert (Hd : isDragging (handleMouseDown (Some canvasRect) pressAtCentre oneUpright) = true).
  { unfold handleMouseDown. cbv zeta.
    change (isSpacePressed oneUpright || Z.eqb (button pressAtCentre) 1) with false.
    cbv iota. rewrite press_on_upright_hits. reflexivity. }
  exact (proj1 (proj2 (proj2 (proj2 (proj2
           (@press_starts_drag_or_pan R ideal canvasRect pressAtCentre oneUpright
              (conj eq_refl eq_refl)))))) Hd).
Defined.

(** Three uploads are drawn in the order of their keys. *)
Lemma render_draws_witness :
  map (fun c => Some (dc_texture c)) (render 800%R 600%R threeLayers)
  = [Some 1%nat; Some 2%nat; Some 3%nat].
Proof.
  assert (Hg : glRef threeLayers <> None) by discriminate.
  assert (Hp : programRef threeLayers <> None) by discriminate.
  rewrite (proj1 (proj2 (proj2 (proj2
             (@render_draws_in_z_order R ideal 800%R 600%R threeLayers Hg Hp))))).
  reflexivity.
Defined.

(** With shaders that do not compile an upload still gets its texture,
    and nothing is drawn. *)
Lemma nothing_drawn_without_program :
  map texture (layers noProgram) = [Some 1%nat] /\ render 800%R 600%R noProgram = [].
Proof. split; reflexivity. Qed.

(** Two layers with the same key, both under the pointer: [render] draws
    the second of the list last, on top, and the hit test returns the
    first. *)
Lemma tie_selects_layer_drawn_beneath :
  map (fun l => (id l, zIndex l)) (layers tiedUploads) = [("a", 1%Z); ("b", 1%Z)]
  /\ map dc_texture (render 800%R 600%R tiedUploads) = [1%nat; 2%nat]
  /\ map texture (layers tiedUploads) = [Some 1%nat; Some 2%nat]
  /\ hitTest (view tiedUploads) (layers tiedUploads) 400%R 300%R = Some "a".
Proof.
  split; [reflexivity | split; [reflexivity | split; [reflexivity |]]].
  unfold hitTest. cbn -[hits].
  rewrite hits_at_centre; [reflexivity | | | |]; cbn; exact_arith; try lra; field.
Qed.

Lemma updateLayer_absent_witness :
  updateLayer "zz" outOfRange (upload "a.png" "a" ready) = upload "a.png" "a" ready.
Proof.
  apply (@updateLayer_absent R "zz" outOfRange (upload "a.png" "a" ready)).
  intros l Hin. apply String.eqb_neq.
  destruct Hin as [<- | []]. reflexivity.
Defined.

Lemma space_bar_witness :
  isPanning (handleMouseDown (Some {| left := 0%R; top := 0%R |})
               {| button := 0; clientX := 5%R; clientY := 5%R |}
               (handleKeyDown spaceKey threeLayers)) = true.
Proof.
  assert (Ht : targetTagName spaceKey <> "INPUT") by (apply String.eqb_neq; reflexivity).
  exact (proj1 (@space_bar_pans R ideal spaceKey {| left := 0%R; top := 0%R |}
                  {| button := 0; clientX := 5%R; clientY := 5%R |} threeLayers
                  eq_refl eq_refl Ht)).
Defined.

Lemma threeLayers_has_a : exists l, In l (layers threeLayers) /\ id l = "a".
Proof. eexists. split; [left; reflexivity | reflexivity]. Qed.

Lemma topRow_is_not_a : id topRow <> "a".
Proof. apply String.eqb_neq. reflexivity. Qed.


Lemma onDrop_nothing_witness : onDrop 7 "a" threeLayers = threeLayers.
Proof.
  apply (@onDrop_nothing_to_move R 7 "a" threeLayers). left. reflexivity.
Defined.

Lemma upload_after_reorder_witness :
  exists newLayer,
    layers (upload "d.png" "d" (onDrop 0 "a" threeLayers))
    = (layers (onDrop 0 "a" threeLayers) ++ [newLayer])%list
    /\ Forall (fun l => (zIndex l < zIndex newLayer)%Z) (layers (onDrop 0 "a" threeLayers)).
Proof.
  exact (@upload_after_reorder_on_top R ideal 0 "a" "d.png" "d" topRow photo threeLayers
           eq_refl topRow_is_not_a threeLayers_has_a).
Defined.

Lemma selection_witness :
  exists l, In l (layers (onDrop 0 "a" threeLayers)) /\ id l = "c".
Proof.
  assert (Hs : selectionPresent threeLayers).
  { intros a Ea. injection Ea as <-. eexists.
    split; [right; right; left; reflexivity | reflexivity]. }
  exact (proj1 (proj2 (proj2 (@selection_stays_present R ideal ready "d.png" "d" "c" "a" photo 0
                                None {| button := 0; clientX := 0%R; clientY := 0%R |}
                                outOfRange threeLayers Hs))) "c" eq_refl).
Defined.

End MoreScenarios.
